(** * Invoice-Backend: the invoice document renderer and the create route

    A shallow embedding of [server.js]: the invoice schema, the PDF layout
    routine [generateInvoicePDF] and the [POST /api/invoices] handler.

    Modelling choices.
    - A JavaScript [Number] is an IEEE-754 binary64 value: Rocq's primitive
      [float], whose [+], [*], [<] and [=?] are the operations of the
      JavaScript engine.
    - Page coordinates are small integers combined with [+] and [Math.max]
      only; they are carried as [Z] (every coordinate the routine can reach
      is far below 2^53, where binary64 arithmetic on integers is exact).
    - PDFKit is an external library.  The document is the sequence of calls
      made on [doc] ([fontSize], [text], [image], [moveTo], [lineTo],
      [stroke], [end]), in emission order.
    - [Number.prototype.toFixed], [Number.prototype.toString], the [Date]
      methods and the record store's own acceptance test are parameters of
      the development (the classes [Host] and [RecordStore]).
    - A request body is typed as the schema types it: the properties the
      route tests ([clientInfo], its [name] and [email], [items], [dueDate],
      [status]) may be missing; quantities and rates are numbers.  The
      [tax] property is any value the body parser can produce: the route
      tests and adds it without a check, and the schema casts it
      afterwards. *)

From Stdlib Require Import ZArith List String Ascii Bool Floats Lia Sorted.
From Stdlib Require Import DecimalString.
From Stdlib Require Decimal DecimalFacts DecimalPos.
Import ListNotations.

Local Open Scope string_scope.
Local Open Scope Z_scope.
Local Open Scope list_scope.

(** Template strings and [+] on strings. *)
Infix "+s+" := String.append (at level 60, right associativity).

(** ** JavaScript values the code tests for truthiness *)

Module JS.

(** A [Number]. *)
Definition number := float.

(** [x !== x] holds of NaN only. *)
Definition isNaN (x : number) : bool := negb (PrimFloat.eqb x x).

(** ToBoolean on a number: [+0], [-0] and [NaN] are falsy. *)
Definition truthy_number (x : number) : bool :=
  negb (PrimFloat.eqb x 0%float || isNaN x).

(** ToBoolean on a string: only the empty string is falsy. *)
Definition truthy_string (s : string) : bool :=
  match s with EmptyString => false | String _ _ => true end.

(** ToBoolean on a property that may be missing ([undefined]). *)
Definition truthy_field (f : option string) : bool :=
  match f with None => false | Some s => truthy_string s end.

(** [v || d] on strings. *)
Definition or_string (f : option string) (d : string) : string :=
  match f with
  | Some s => if truthy_string s then s else d
  | None => d
  end.

(** A value of a parsed request body.  [Undefined] is a property that is
    missing.  An array or an object is known by what [+] observes of it: the
    string ToPrimitive gives for it, or none when that conversion throws. *)
Inductive value : Type :=
| Undefined
| Null
| Bool (b : bool)
| Number (x : number)
| Str (s : string)
| Object (primitive : option string).

(** ToBoolean. *)
Definition truthy (v : value) : bool :=
  match v with
  | Undefined | Null => false
  | Bool b => b
  | Number x => truthy_number x
  | Str s => truthy_string s
  | Object _ => true
  end.

(** [v || 0]. *)
Definition or_zero (v : value) : value :=
  if truthy v then v else Number 0%float.

(** [x > 0]. *)
Definition gt0 (x : number) : bool := PrimFloat.ltb 0%float x.

End JS.

(** ** The invoice schema *)

Module ClientInfo.
Record t := mk {
  name : string;
  email : string;
  address : option string;
  phone : option string
}.
End ClientInfo.

Module CompanyInfo.
Record t := mk {
  name : string;
  address : string;
  email : string;
  phone : string
}.
End CompanyInfo.

Module Item.
Record t := mk {
  description : string;
  quantity : JS.number;
  rate : JS.number;
  amount : JS.number
}.
End Item.

(** A [Date] is its time value, milliseconds since the epoch. *)
Definition Date := Z.

Module Invoice.
Record t := mk {
  invoiceNumber : string;
  clientInfo : ClientInfo.t;
  companyInfo : CompanyInfo.t;
  items : list Item.t;
  subtotal : JS.number;
  tax : JS.number;
  total : JS.number;
  status : string;
  dueDate : option Date;
  createdAt : Date;
  pdfPath : option string
}.

Definition with_pdfPath (p : string) (i : t) : t :=
  mk (invoiceNumber i) (clientInfo i) (companyInfo i) (items i)
     (subtotal i) (tax i) (total i) (status i) (dueDate i) (createdAt i)
     (Some p).

Definition with_address (a : option string) (i : t) : t :=
  let c := clientInfo i in
  mk (invoiceNumber i)
     (ClientInfo.mk (ClientInfo.name c) (ClientInfo.email c) a
                    (ClientInfo.phone c))
     (companyInfo i) (items i)
     (subtotal i) (tax i) (total i) (status i) (dueDate i) (createdAt i)
     (pdfPath i).
End Invoice.

(** ** The PDFKit document: the calls made on [doc] *)

Inductive op : Type :=
| FontSize (n : Z)
| Text (s : string) (x y : Z)
| Image (src : string) (x y width height : Z)
| MoveTo (x y : Z)
| LineTo (x y : Z)
| Stroke
| End_.

(** The logo asset at [path.join(__dirname, 'logo.png')]:
    [fs.existsSync] is false, or the file exists and [doc.image] accepts it,
    or the file exists and [doc.image] throws an error with a message. *)
Inductive LogoAsset : Type :=
| LogoMissing
| LogoReadable
| LogoUnreadable (message : string).

Definition logoPath : string := "logo.png".

(** ** The world the server runs in

    The file system (the logo asset, which output paths can be written, the
    artifacts written so far), the console, the record store and the clock. *)

Module World.
Record t := mk {
  logo : LogoAsset;
  writable : string -> bool;
  files : list (string * list op);
  console : list string;
  store : list Invoice.t;
  now : Date
}.

Definition log (msgs : list string) (w : t) : t :=
  mk (logo w) (writable w) (files w) (console w ++ msgs) (store w) (now w).

Definition write (path : string) (content : list op) (w : t) : t :=
  mk (logo w) (writable w) ((path, content) :: files w) (console w)
     (store w) (now w).

Definition insert (i : Invoice.t) (w : t) : t :=
  mk (logo w) (writable w) (files w) (console w) (i :: store w) (now w).

(** The stored document with the number of [i] becomes [i]. *)
Definition replace (i : Invoice.t) (w : t) : t :=
  mk (logo w) (writable w) (files w) (console w)
     (map (fun j => if String.eqb (Invoice.invoiceNumber j)
                                  (Invoice.invoiceNumber i)
                    then i else j) (store w))
     (now w).

Definition with_logo (l : LogoAsset) (w : t) : t :=
  mk l (writable w) (files w) (console w) (store w) (now w).
End World.

(** ** Drawing: a writer over the document and the console *)

Module Draw.

Record out := mkOut { doc : list op; warnings : list string }.

Definition M (A : Type) : Type := A * out.

Definition ret {A} (a : A) : M A := (a, mkOut [] []).

Definition bind {A B} (m : M A) (f : A -> M B) : M B :=
  let '(a, o1) := m in
  let '(b, o2) := f a in
  (b, mkOut (doc o1 ++ doc o2) (warnings o1 ++ warnings o2)).

Definition emit (o : op) : M unit := (tt, mkOut [o] []).

Definition warn (s : string) : M unit := (tt, mkOut [] [s]).

Definition fontSize (n : Z) : M unit := emit (FontSize n).
Definition text (s : string) (x y : Z) : M unit := emit (Text s x y).
Definition image (src : string) (x y w h : Z) : M unit :=
  emit (Image src x y w h).
Definition moveTo (x y : Z) : M unit := emit (MoveTo x y).
Definition lineTo (x y : Z) : M unit := emit (LineTo x y).
Definition stroke : M unit := emit Stroke.
Definition end_ : M unit := emit End_.

Definition exec {A} (m : M A) : out := snd m.

End Draw.

Declare Scope draw_scope.
Delimit Scope draw_scope with draw.
Notation "x <- c1 ;; c2" := (Draw.bind c1 (fun x => c2))
  (at level 61, c1 at next level, right associativity) : draw_scope.
Notation "c1 ;; c2" := (Draw.bind c1 (fun _ => c2))
  (at level 61, right associativity) : draw_scope.

(** ** The host: what the JavaScript runtime supplies

    [x.toFixed(2)], [x.toString()], [d.toLocaleDateString()],
    [d.getFullYear()], [d.getMonth()] (both in the host's time zone) and
    [new Date(s)] on a date string. *)

Class Host : Type := {
  toFixed2 : JS.number -> string;
  numberToString : JS.number -> string;
  toLocaleDateString : Date -> string;
  getFullYear : Date -> Z;
  getMonth : Date -> Z;
  newDate : string -> Date
}.

(** ** [generateInvoicePDF]: the layout routine *)

Section Renderer.

Context `{Host}.

Local Open Scope draw_scope.

(** [invoiceData.items.forEach(...)]: one row per item, in order;
    the result is [yPosition] after the loop. *)
Fixpoint forEachItem (items : list Item.t) (yPosition : Z) : Draw.M Z :=
  match items with
  | [] => Draw.ret yPosition
  | item :: rest =>
      Draw.text (Item.description item) 50 yPosition ;;
      Draw.text (numberToString (Item.quantity item)) 300 yPosition ;;
      Draw.text ("$" +s+ toFixed2 (Item.rate item)) 350 yPosition ;;
      Draw.text ("$" +s+ toFixed2 (Item.amount item)) 450 yPosition ;;
      forEachItem rest (yPosition + 20)
  end.

(** The body of the promise executor, up to [doc.end()]. *)
Definition drawInvoice (logo : LogoAsset) (invoiceData : Invoice.t)
  : Draw.M unit :=
  let companyInfo := Invoice.companyInfo invoiceData in
  let clientInfo := Invoice.clientInfo invoiceData in
  (* Company Logo and Header *)
  logoHeight <-
    match logo with
    | LogoMissing => Draw.ret 0
    | LogoReadable =>
        Draw.image logoPath 50 50 120 60 ;;
        Draw.ret 70
    | LogoUnreadable message =>
        Draw.warn ("Could not load logo: " +s+ message) ;;
        Draw.ret 0
    end ;;
  (* Company Header (positioned after logo) *)
  let headerY := 50 + logoHeight in
  Draw.fontSize 20 ;;
  Draw.text (CompanyInfo.name companyInfo) 50 headerY ;;
  Draw.fontSize 12 ;;
  Draw.text (CompanyInfo.address companyInfo) 50 (headerY + 30) ;;
  Draw.text (CompanyInfo.email companyInfo) 50 (headerY + 45) ;;
  Draw.text (CompanyInfo.phone companyInfo) 50 (headerY + 60) ;;
  (* Invoice Title and Number (adjust position based on logo) *)
  let invoiceTitleY := Z.max 50 headerY in
  Draw.fontSize 24 ;;
  Draw.text "INVOICE" 400 invoiceTitleY ;;
  Draw.fontSize 12 ;;
  Draw.text ("Invoice #: " +s+ Invoice.invoiceNumber invoiceData)
            400 (invoiceTitleY + 30) ;;
  Draw.text ("Date: " +s+ toLocaleDateString (Invoice.createdAt invoiceData))
            400 (invoiceTitleY + 45) ;;
  match Invoice.dueDate invoiceData with
  | Some d =>
      Draw.text ("Due Date: " +s+ toLocaleDateString d)
                400 (invoiceTitleY + 60)
  | None => Draw.ret tt
  end ;;
  (* Client Information (adjust position based on header) *)
  let clientY := Z.max 160 (headerY + 100) in
  Draw.fontSize 16 ;;
  Draw.text "Bill To:" 50 clientY ;;
  Draw.fontSize 12 ;;
  Draw.text (ClientInfo.name clientInfo) 50 (clientY + 20) ;;
  Draw.text (ClientInfo.email clientInfo) 50 (clientY + 35) ;;
  let clientInfoHeight := 55 in
  clientInfoHeight <-
    match ClientInfo.address clientInfo with
    | Some a =>
        if JS.truthy_string a then
          Draw.text a 50 (clientY + 50) ;;
          Draw.ret (clientInfoHeight + 15)
        else Draw.ret clientInfoHeight
    | None => Draw.ret clientInfoHeight
    end ;;
  clientInfoHeight <-
    match ClientInfo.phone clientInfo with
    | Some p =>
        if JS.truthy_string p then
          Draw.text p 50
            (clientY + 50 +
             (if JS.truthy_field (ClientInfo.address clientInfo)
              then 15 else 0)) ;;
          Draw.ret (clientInfoHeight + 15)
        else Draw.ret clientInfoHeight
    | None => Draw.ret clientInfoHeight
    end ;;
  (* Items Table Header (adjust position based on client info) *)
  let tableTop := clientY + clientInfoHeight + 30 in
  Draw.fontSize 12 ;;
  Draw.text "Description" 50 tableTop ;;
  Draw.text "Qty" 300 tableTop ;;
  Draw.text "Rate" 350 tableTop ;;
  Draw.text "Amount" 450 tableTop ;;
  Draw.moveTo 50 (tableTop + 15) ;;
  Draw.lineTo 550 (tableTop + 15) ;;
  Draw.stroke ;;
  (* Items *)
  let yPosition := tableTop + 30 in
  yPosition <- forEachItem (Invoice.items invoiceData) yPosition ;;
  (* Totals *)
  let yPosition := yPosition + 20 in
  Draw.moveTo 350 yPosition ;;
  Draw.lineTo 550 yPosition ;;
  Draw.stroke ;;
  let yPosition := yPosition + 10 in
  Draw.text "Subtotal:" 350 yPosition ;;
  Draw.text ("$" +s+ toFixed2 (Invoice.subtotal invoiceData))
            450 yPosition ;;
  yPosition <-
    (if JS.gt0 (Invoice.tax invoiceData) then
       let yPosition := yPosition + 20 in
       Draw.text "Tax:" 350 yPosition ;;
       Draw.text ("$" +s+ toFixed2 (Invoice.tax invoiceData))
                 450 yPosition ;;
       Draw.ret yPosition
     else Draw.ret yPosition) ;;
  let yPosition := yPosition + 20 in
  Draw.fontSize 14 ;;
  Draw.text "Total:" 350 yPosition ;;
  Draw.text ("$" +s+ toFixed2 (Invoice.total invoiceData)) 450 yPosition ;;
  (* Footer *)
  Draw.fontSize 10 ;;
  Draw.text "Thank you for your business!" 50 (yPosition + 80) ;;
  Draw.end_.

(** The promise returned by [generateInvoicePDF]. *)
Inductive settled : Type :=
| Resolved (outputPath : string)
| Rejected.

(** [generateInvoicePDF(invoiceData, outputPath)]: the document is piped to
    a write stream on [outputPath]; the promise resolves on the stream's
    [finish] and rejects on its [error]. *)
Definition generateInvoicePDF (invoiceData : Invoice.t) (outputPath : string)
           (w : World.t) : settled * World.t :=
  let o := Draw.exec (drawInvoice (World.logo w) invoiceData) in
  let w := World.log (Draw.warnings o) w in
  if World.writable w outputPath
  then (Resolved outputPath, World.write outputPath (Draw.doc o) w)
  else (Rejected, w).

(** *** The layout, block by block

    The local variables of the routine as functions of its inputs, and the
    calls each commented section of the routine makes, given the vertical
    origin it starts from. *)

Definition logoHeight (logo : LogoAsset) : Z :=
  match logo with LogoReadable => 70 | _ => 0 end.

Definition headerY (logo : LogoAsset) : Z := 50 + logoHeight logo.

Definition invoiceTitleY (logo : LogoAsset) : Z := Z.max 50 (headerY logo).

Definition clientY (logo : LogoAsset) : Z := Z.max 160 (headerY logo + 100).

Definition clientInfoHeight (c : ClientInfo.t) : Z :=
  55 + (if JS.truthy_field (ClientInfo.address c) then 15 else 0)
     + (if JS.truthy_field (ClientInfo.phone c) then 15 else 0).

Definition tableTop (logo : LogoAsset) (i : Invoice.t) : Z :=
  clientY logo + clientInfoHeight (Invoice.clientInfo i) + 30.

(** [yPosition] when row [k] is drawn. *)
Definition rowY (logo : LogoAsset) (i : Invoice.t) (k : nat) : Z :=
  tableTop logo i + 30 + 20 * Z.of_nat k.

(** [yPosition] when the loop over the items ends. *)
Definition afterRowsY (logo : LogoAsset) (i : Invoice.t) : Z :=
  rowY logo i (List.length (Invoice.items i)).

Definition ruleY (logo : LogoAsset) (i : Invoice.t) : Z :=
  afterRowsY logo i + 20.

Definition subtotalY (logo : LogoAsset) (i : Invoice.t) : Z :=
  ruleY logo i + 10.

Definition taxY (logo : LogoAsset) (i : Invoice.t) : Z :=
  subtotalY logo i + 20.

Definition totalY (logo : LogoAsset) (i : Invoice.t) : Z :=
  (if JS.gt0 (Invoice.tax i) then taxY logo i else subtotalY logo i) + 20.

Definition footerY (logo : LogoAsset) (i : Invoice.t) : Z :=
  totalY logo i + 80.

(** What the routine writes on the console. *)
Definition logoWarnings (logo : LogoAsset) : list string :=
  match logo with
  | LogoUnreadable message => ["Could not load logo: " +s+ message]
  | _ => []
  end.

Definition logoBlock (logo : LogoAsset) : list op :=
  match logo with
  | LogoReadable => [Image logoPath 50 50 120 60]
  | _ => []
  end.

Definition headerBlock (c : CompanyInfo.t) (y : Z) : list op :=
  [ FontSize 20; Text (CompanyInfo.name c) 50 y;
    FontSize 12; Text (CompanyInfo.address c) 50 (y + 30);
    Text (CompanyInfo.email c) 50 (y + 45);
    Text (CompanyInfo.phone c) 50 (y + 60) ].

Definition dueDateLine (d : option Date) (y : Z) : list op :=
  match d with
  | Some d => [Text ("Due Date: " +s+ toLocaleDateString d) 400 (y + 60)]
  | None => []
  end.

Definition titleBlock (i : Invoice.t) (y : Z) : list op :=
  [ FontSize 24; Text "INVOICE" 400 y;
    FontSize 12;
    Text ("Invoice #: " +s+ Invoice.invoiceNumber i) 400 (y + 30);
    Text ("Date: " +s+ toLocaleDateString (Invoice.createdAt i))
         400 (y + 45) ]
  ++ dueDateLine (Invoice.dueDate i) y.

(** "Bill To:", name and email: the lines the client block always has. *)
Definition clientHead (c : ClientInfo.t) (y : Z) : list op :=
  [ FontSize 16; Text "Bill To:" 50 y;
    FontSize 12; Text (ClientInfo.name c) 50 (y + 20);
    Text (ClientInfo.email c) 50 (y + 35) ].

Definition addressLine (c : ClientInfo.t) (y : Z) : list op :=
  match ClientInfo.address c with
  | Some a => if JS.truthy_string a then [Text a 50 (y + 50)] else []
  | None => []
  end.

Definition phoneLine (c : ClientInfo.t) (y : Z) : list op :=
  match ClientInfo.phone c with
  | Some p =>
      if JS.truthy_string p
      then [Text p 50
              (y + 50 + (if JS.truthy_field (ClientInfo.address c)
                         then 15 else 0))]
      else []
  | None => []
  end.

Definition clientBlock (c : ClientInfo.t) (y : Z) : list op :=
  clientHead c y ++ addressLine c y ++ phoneLine c y.

Definition tableHeader (y : Z) : list op :=
  [ FontSize 12;
    Text "Description" 50 y; Text "Qty" 300 y;
    Text "Rate" 350 y; Text "Amount" 450 y;
    MoveTo 50 (y + 15); LineTo 550 (y + 15); Stroke ].

Definition rowOps (item : Item.t) (y : Z) : list op :=
  [ Text (Item.description item) 50 y;
    Text (numberToString (Item.quantity item)) 300 y;
    Text ("$" +s+ toFixed2 (Item.rate item)) 350 y;
    Text ("$" +s+ toFixed2 (Item.amount item)) 450 y ].

(** The rows of the table, one block of calls per item, the first at [y]. *)
Fixpoint rowBlocks (items : list Item.t) (y : Z) : list (list op) :=
  match items with
  | [] => []
  | item :: rest => rowOps item y :: rowBlocks rest (y + 20)
  end.

Definition itemRows (items : list Item.t) (y : Z) : list op :=
  List.concat (rowBlocks items y).

Definition taxLine (i : Invoice.t) (y : Z) : list op :=
  if JS.gt0 (Invoice.tax i)
  then [ Text "Tax:" 350 (y + 20);
         Text ("$" +s+ toFixed2 (Invoice.tax i)) 450 (y + 20) ]
  else [].

(** The totals, [y] being the offset of the rule above them. *)
Definition totalsBlock (i : Invoice.t) (y : Z) : list op :=
  [ MoveTo 350 y; LineTo 550 y; Stroke;
    Text "Subtotal:" 350 (y + 10);
    Text ("$" +s+ toFixed2 (Invoice.subtotal i)) 450 (y + 10) ]
  ++ taxLine i (y + 10)
  ++ [ FontSize 14;
       Text "Total:" 350
            (y + 10 + (if JS.gt0 (Invoice.tax i) then 20 else 0) + 20);
       Text ("$" +s+ toFixed2 (Invoice.total i)) 450
            (y + 10 + (if JS.gt0 (Invoice.tax i) then 20 else 0) + 20) ].

Definition footerBlock (y : Z) : list op :=
  [ FontSize 10; Text "Thank you for your business!" 50 y; End_ ].

(** The blocks of one render, top to bottom: the logo region (empty when no
    logo is drawn), header, title, client, table header, one block per item
    row, totals, footer. *)
Definition blocks (logo : LogoAsset) (i : Invoice.t) : list (list op) :=
  [ logoBlock logo;
    headerBlock (Invoice.companyInfo i) (headerY logo);
    titleBlock i (invoiceTitleY logo);
    clientBlock (Invoice.clientInfo i) (clientY logo);
    tableHeader (tableTop logo i) ]
  ++ rowBlocks (Invoice.items i) (rowY logo i 0)
  ++ [ totalsBlock i (ruleY logo i);
       footerBlock (footerY logo i) ].

(** Everything drawn before the client block, and everything from the client
    block on. *)
Definition upperPart (logo : LogoAsset) (i : Invoice.t) : list op :=
  headerBlock (Invoice.companyInfo i) (headerY logo)
  ++ titleBlock i (invoiceTitleY logo).

Definition belowClientHead (logo : LogoAsset) (i : Invoice.t) : list op :=
  phoneLine (Invoice.clientInfo i) (clientY logo)
  ++ tableHeader (tableTop logo i)
  ++ itemRows (Invoice.items i) (rowY logo i 0)
  ++ totalsBlock i (ruleY logo i)
  ++ footerBlock (footerY logo i).

Definition lowerPart (logo : LogoAsset) (i : Invoice.t) : list op :=
  clientHead (Invoice.clientInfo i) (clientY logo)
  ++ addressLine (Invoice.clientInfo i) (clientY logo)
  ++ belowClientHead logo i.

(** What [doc] holds when the routine reaches the end. *)
Definition rendered (logo : LogoAsset) (i : Invoice.t) : list op :=
  Draw.doc (Draw.exec (drawInvoice logo i)).

End Renderer.

(** ** Reading a document back

    The vertical offset of a call, a block's origin, the cursor of a list of
    blocks, a vertical shift, and the offsets of the lines that print a given
    text in a given column. *)

Definition opY (o : op) : option Z :=
  match o with
  | Text _ _ y => Some y
  | Image _ _ y _ _ => Some y
  | MoveTo _ y => Some y
  | LineTo _ y => Some y
  | FontSize _ | Stroke | End_ => None
  end.

(** Where a block begins: the offset of its first positioned call. *)
Fixpoint origin (block : list op) : option Z :=
  match block with
  | [] => None
  | o :: rest => match opY o with Some y => Some y | None => origin rest end
  end.

(** The successive origins of a list of blocks. *)
Definition cursor (bs : list (list op)) : list Z :=
  flat_map (fun b => match origin b with Some y => [y] | None => [] end) bs.

Definition shiftY (d : Z) (o : op) : op :=
  match o with
  | Text s x y => Text s x (y + d)
  | Image src x y w h => Image src x (y + d) w h
  | MoveTo x y => MoveTo x (y + d)
  | LineTo x y => LineTo x (y + d)
  | FontSize n => FontSize n
  | Stroke => Stroke
  | End_ => End_
  end.

Fixpoint lineOffsets (s : string) (x : Z) (ops : list op) : list Z :=
  match ops with
  | [] => []
  | Text s' x' y :: rest =>
      if Z.eqb x' x && String.eqb s' s
      then y :: lineOffsets s x rest
      else lineOffsets s x rest
  | _ :: rest => lineOffsets s x rest
  end.

(** The four calls of row [k] in a sequence of rows. *)
Definition nthRow (k : nat) (rows : list op) : list op :=
  firstn 4 (skipn (4 * k) rows).

(** ** The record store

    Mongoose and MongoDB are external.  [accepts] is the store's own test on
    a document (schema validation, connectivity); [castNumber] is the cast
    of a value that is not a number to a path the schema types [Number],
    with no result when the value cannot be cast; the schema's [unique]
    index on [invoiceNumber] is modelled here. *)

Class RecordStore : Type := {
  accepts : Invoice.t -> bool;
  castNumber : JS.value -> option JS.number
}.

(** ** [POST /api/invoices] *)

Module ClientReq.
Record t := mk {
  name : option string;
  email : option string;
  address : option string;
  phone : option string
}.
End ClientReq.

Module CompanyReq.
Record t := mk {
  name : option string;
  address : option string;
  email : option string;
  phone : option string
}.
End CompanyReq.

Module ItemReq.
Record t := mk {
  description : string;
  quantity : JS.number;
  rate : JS.number
}.
End ItemReq.

(** The [items] property of the body: missing ([undefined] or [null]), a
    value that is not an array (of which the code observes the truthiness
    only), or an array. *)
Inductive ItemsField : Type :=
| ItemsMissing
| ItemsNotArray (truthy : bool)
| ItemsArray (elements : list ItemReq.t).

Module Body.
Record t := mk {
  clientInfo : option ClientReq.t;
  companyInfo : option CompanyReq.t;
  items : ItemsField;
  tax : JS.value;
  dueDate : option string;
  status : option string
}.
End Body.

Inductive Response : Type :=
| Status400 (error : string)
| Status500 (error : string)
| Status201 (invoice : Invoice.t).

(** [!clientInfo || !clientInfo.name || !clientInfo.email] *)
Definition clientInfoRejected (c : option ClientReq.t) : bool :=
  match c with
  | None => true
  | Some c =>
      negb (JS.truthy_field (ClientReq.name c))
      || negb (JS.truthy_field (ClientReq.email c))
  end.

(** ToBoolean, [Array.isArray] and the elements of the [items] property. *)
Definition itemsTruthy (f : ItemsField) : bool :=
  match f with
  | ItemsMissing => false
  | ItemsNotArray truthy => truthy
  | ItemsArray _ => true
  end.

Definition isArray (f : ItemsField) : bool :=
  match f with ItemsArray _ => true | _ => false end.

Definition elementsOf (f : ItemsField) : list ItemReq.t :=
  match f with ItemsArray elements => elements | _ => [] end.

(** [!items || !Array.isArray(items) || items.length === 0] *)
Definition itemsRejected (f : ItemsField) : bool :=
  negb (itemsTruthy f)
  || negb (isArray f)
  || (Z.of_nat (List.length (elementsOf f)) =? 0).

(** [items.map(item => ...)] with its running [subtotal += amount]. *)
Definition processItems (items : list ItemReq.t) : list Item.t * JS.number :=
  fold_left
    (fun '(processedItems, subtotal) item =>
       let amount := PrimFloat.mul (ItemReq.quantity item) (ItemReq.rate item) in
       (processedItems
          ++ [Item.mk (ItemReq.description item) (ItemReq.quantity item)
                      (ItemReq.rate item) amount],
        PrimFloat.add subtotal amount))
    items ([], 0%float).

(** What the callback of [items.map] returns for one item. *)
Definition processItem (item : ItemReq.t) : Item.t :=
  Item.mk (ItemReq.description item) (ItemReq.quantity item)
          (ItemReq.rate item)
          (PrimFloat.mul (ItemReq.quantity item) (ItemReq.rate item)).

(** The schema's defaults for [companyInfo] (a default applies to a missing
    property only). *)
Definition orDefault (d : string) (f : option string) : string :=
  match f with Some s => s | None => d end.

Definition castCompanyInfo (c : option CompanyReq.t) : CompanyInfo.t :=
  let c := match c with
           | Some c => c
           | None => CompanyReq.mk None None None None
           end in
  CompanyInfo.mk
    (orDefault "Your Company Name" (CompanyReq.name c))
    (orDefault "123 Business St, City, State 12345" (CompanyReq.address c))
    (orDefault "hello@yourcompany.com" (CompanyReq.email c))
    (orDefault "+1 (555) 123-4567" (CompanyReq.phone c)).

Definition castClientInfo (c : option ClientReq.t) : ClientInfo.t :=
  match c with
  | Some c =>
      ClientInfo.mk (orDefault "" (ClientReq.name c))
                    (orDefault "" (ClientReq.email c))
                    (ClientReq.address c) (ClientReq.phone c)
  | None => ClientInfo.mk "" "" None None
  end.

(** Decimal digits of an integer, [s.padStart(2, '0')] and [s.slice(-n)]. *)
Definition decimal (z : Z) : string := NilZero.string_of_int (Z.to_int z).

Definition padStart2 (s : string) : string :=
  match String.length s with
  | O => "00"
  | S O => "0" +s+ s
  | _ => s
  end.

Definition sliceLast (n : nat) (s : string) : string :=
  substring (String.length s - n) n s.

Definition invoicesDir : string := "invoices".

Definition pathJoin (dir file : string) : string := dir +s+ "/" +s+ file.

Section Create.

Context `{Host} `{RecordStore}.

Definition generateInvoiceNumber (now : Date) : string :=
  let year := getFullYear now in
  let month := padStart2 (decimal (getMonth now + 1)) in
  let timestamp := sliceLast 6 (decimal now) in
  "INV-" +s+ decimal year +s+ month +s+ "-" +s+ timestamp.

(** [invoice.save()] on a new document, and on one saved before. *)
Definition saveNew (i : Invoice.t) (w : World.t) : option World.t :=
  if accepts i
     && negb (existsb (fun j => String.eqb (Invoice.invoiceNumber j)
                                           (Invoice.invoiceNumber i))
                      (World.store w))
  then Some (World.insert i w)
  else None.

Definition saveAgain (i : Invoice.t) (w : World.t) : option World.t :=
  if accepts i then Some (World.replace i w) else None.

(** The [catch] of the route. *)
Definition failed (w : World.t) : Response * World.t :=
  (Status500 "Failed to create invoice",
   World.log ["Error creating invoice:"] w).

(** [subtotal + taxAmount] for a number [subtotal]: the sum when
    [taxAmount] is a number, a boolean, [null] or [undefined]; the
    concatenation of the two strings when it is a string, an array or an
    object; no value when ToPrimitive throws. *)
Definition plus (subtotal : JS.number) (taxAmount : JS.value)
  : option JS.value :=
  match taxAmount with
  | JS.Undefined => Some (JS.Number (PrimFloat.add subtotal PrimFloat.nan))
  | JS.Null => Some (JS.Number (PrimFloat.add subtotal 0%float))
  | JS.Bool b =>
      Some (JS.Number (PrimFloat.add subtotal
                                     (if b then 1%float else 0%float)))
  | JS.Number x => Some (JS.Number (PrimFloat.add subtotal x))
  | JS.Str s => Some (JS.Str (numberToString subtotal +s+ s))
  | JS.Object (Some s) => Some (JS.Str (numberToString subtotal +s+ s))
  | JS.Object None => None
  end.

(** The schema's cast of [tax] and [total]: a number is kept as it is (the
    store's test is [accepts]), any other value is cast by the store. *)
Definition castToNumber (v : JS.value) : option JS.number :=
  match v with
  | JS.Number x => Some x
  | _ => castNumber v
  end.

(** [new Invoice(invoiceData)] for the [invoiceData] the route builds: no
    document when [+] throws, and none that can be saved when [tax] or
    [total] cannot be cast. *)
Definition newInvoice (body : Body.t) (now : Date) : option Invoice.t :=
  let '(processedItems, subtotal) := processItems (elementsOf (Body.items body)) in
  let taxAmount := JS.or_zero (Body.tax body) in
  match plus subtotal taxAmount with
  | None => None
  | Some total =>
      match castToNumber taxAmount, castToNumber total with
      | Some taxAmount, Some total =>
          Some (Invoice.mk
                  (generateInvoiceNumber now)
                  (castClientInfo (Body.clientInfo body))
                  (castCompanyInfo (Body.companyInfo body))
                  processedItems
                  subtotal
                  taxAmount
                  total
                  (JS.or_string (Body.status body) "draft")
                  (match Body.dueDate body with
                   | Some d =>
                       if JS.truthy_string d then Some (newDate d) else None
                   | None => None
                   end)
                  now
                  None)
      | _, _ => None
      end
  end.

Definition postInvoices (body : Body.t) (w : World.t) : Response * World.t :=
  (* Validate required fields *)
  if clientInfoRejected (Body.clientInfo body)
  then (Status400 "Client name and email are required", w)
  else if itemsRejected (Body.items body)
  then (Status400 "At least one item is required", w)
  else
    (* Calculate totals, create invoice data *)
    match newInvoice body (World.now w) with
    | None => failed w
    | Some invoice =>
        (* Save to database *)
        match saveNew invoice w with
        | None => failed w
        | Some w =>
            (* Generate PDF *)
            let pdfFileName :=
              "invoice-" +s+ Invoice.invoiceNumber invoice +s+ ".pdf" in
            let pdfPath := pathJoin invoicesDir pdfFileName in
            match generateInvoicePDF invoice pdfPath w with
            | (Rejected, w) => failed w
            | (Resolved _, w) =>
                (* Update invoice with PDF path *)
                let invoice := Invoice.with_pdfPath pdfPath invoice in
                match saveAgain invoice w with
                | None => failed w
                | Some w => (Status201 invoice, w)
                end
            end
        end
    end.

(** Every run of the route ends in one of five ways. *)
Inductive Outcome (body : Body.t) (w : World.t) : Response * World.t -> Prop :=
| RejectedClient :
    clientInfoRejected (Body.clientInfo body) = true ->
    Outcome body w (Status400 "Client name and email are required", w)
| RejectedItems :
    clientInfoRejected (Body.clientInfo body) = false ->
    itemsRejected (Body.items body) = true ->
    Outcome body w (Status400 "At least one item is required", w)
| NotSaved (w' : World.t) :
    World.store w' = World.store w ->
    Outcome body w (Status500 "Failed to create invoice", w')
| SavedOnly (invoice : Invoice.t) (w' : World.t) :
    newInvoice body (World.now w) = Some invoice ->
    World.store w' = invoice :: World.store w ->
    Outcome body w (Status500 "Failed to create invoice", w')
| SavedAndRendered (invoice : Invoice.t) (w' : World.t) (p : string) :
    newInvoice body (World.now w) = Some invoice ->
    World.store w'
    = Invoice.with_pdfPath p invoice
      :: map (fun j =>
                if String.eqb (Invoice.invoiceNumber j)
                     (Invoice.invoiceNumber invoice)
                then Invoice.with_pdfPath p invoice
                else j) (World.store w) ->
    Outcome body w (Status201 (Invoice.with_pdfPath p invoice), w').

End Create.

(** ** What the specification calls an invalid create request *)

Inductive FailsValidation (body : Body.t) : Prop :=
| ClientInfoMissing :
    Body.clientInfo body = None -> FailsValidation body
| ClientNameMissing (c : ClientReq.t) :
    Body.clientInfo body = Some c ->
    JS.truthy_field (ClientReq.name c) = false -> FailsValidation body
| ClientEmailMissing (c : ClientReq.t) :
    Body.clientInfo body = Some c ->
    JS.truthy_field (ClientReq.email c) = false -> FailsValidation body
| ItemListMissing :
    Body.items body = ItemsMissing -> FailsValidation body
| ItemListNotArray (truthy : bool) :
    Body.items body = ItemsNotArray truthy -> FailsValidation body
| ItemListEmpty :
    Body.items body = ItemsArray [] -> FailsValidation body.

(** The sum of a list of numbers, added from 0 in list order. *)
Definition sumOf (amounts : list JS.number) : JS.number :=
  fold_left PrimFloat.add amounts 0%float.

(** A tax that is missing, [null] or a number. *)
Inductive NumberOrMissing : JS.value -> Prop :=
| TaxUndefined : NumberOrMissing JS.Undefined
| TaxNull : NumberOrMissing JS.Null
| TaxNumber (t : JS.number) : NumberOrMissing (JS.Number t).



(** ** Sample data for the concrete runs

    One host and one record store; the theorems below hold for every host
    and every store.  The sample host prints a number rounded to two
    decimals (half up on the exact binary value), an integer-valued number
    as its digits, and a date as its day count since the epoch. *)

Definition centsOf (m : positive) (e : Z) : Z :=
  if 0 <=? e
  then Z.pos m * 2 ^ e * 100
  else (Z.pos m * 200 + 2 ^ (- e)) / 2 ^ (- e + 1).

Definition fixed2 (x : JS.number) : string :=
  match Prim2SF x with
  | S754_nan => "NaN"
  | S754_infinity s => if s then "-Infinity" else "Infinity"
  | S754_zero _ => "0.00"
  | S754_finite s m e =>
      let n := centsOf m e in
      (if s then "-" else "")
      +s+ decimal (n / 100) +s+ "." +s+ padStart2 (decimal (n mod 100))
  end.

Definition plainNumber (x : JS.number) : string :=
  match Prim2SF x with
  | S754_finite s m e =>
      if 0 <=? e
      then (if s then "-" else "") +s+ decimal (Z.pos m * 2 ^ e)
      else if Z.pos m mod 2 ^ (- e) =? 0
      then (if s then "-" else "") +s+ decimal (Z.pos m / 2 ^ (- e))
      else fixed2 x
  | S754_zero _ => "0"
  | _ => fixed2 x
  end.

#[export] Instance sampleHost : Host := {|
  toFixed2 := fixed2;
  numberToString := plainNumber;
  toLocaleDateString := fun d => "day " +s+ decimal (d / 86400000);
  getFullYear := fun d => 1970 + d / 31556952000;
  getMonth := fun d => (d mod 31556952000) / 2629746000;
  newDate := fun _ => 0
|}.

(** The sample store takes every document; it casts [true] to 1, [false]
    to 0 and a string of one to fifteen decimal digits to the integer it
    writes, and no other value. *)
Definition digitsToNumber (s : string) : option JS.number :=
  if JS.truthy_string s && (String.length s <=? 15)%nat
  then
    match NilZero.uint_of_string s with
    | Some u => Some (PrimFloat.of_uint63 (Uint63.of_Z (Z.of_N (N.of_uint u))))
    | None => None
    end
  else None.

#[export] Instance sampleStore : RecordStore := {|
  accepts := fun _ => true;
  castNumber := fun v =>
    match v with
    | JS.Bool b => Some (if b then 1%float else 0%float)
    | JS.Str s => digitsToNumber s
    | _ => None
    end
|}.

Definition sampleWorld : World.t :=
  World.mk LogoMissing (fun _ => true) [] [] [] 1767225600000.

Definition acme : ClientReq.t :=
  ClientReq.mk (Some "Acme") (Some "billing@acme.test") None None.

Definition design : ItemReq.t := ItemReq.mk "Design" 2%float 50%float.

(** One item [{description: "Design", quantity: 2, rate: 50}], no tax, no
    address, no phone; the same with [tax = 8.25] and with [tax = "5"]; and
    a body whose tax is negative and small against its subtotal. *)
Definition designBody : Body.t :=
  Body.mk (Some acme) None (ItemsArray [design]) JS.Undefined None None.

Definition designTaxBody : Body.t :=
  Body.mk (Some acme) None (ItemsArray [design]) (JS.Number 8.25%float)
          None None.



Definition noClientBody : Body.t :=
  Body.mk None None (ItemsArray [design]) JS.Undefined None None.

(** The documents the route builds for the first two at the sample clock
    reading. *)
Definition designInvoice : Invoice.t :=
  Invoice.mk "INV-202601-600000" (castClientInfo (Some acme))
    (castCompanyInfo None) [processItem design]
    100%float 0%float 100%float "draft" None 1767225600000 None.

Definition designTaxInvoice : Invoice.t :=
  Invoice.mk "INV-202601-600000" (castClientInfo (Some acme))
    (castCompanyInfo None) [processItem design]
    100%float 8.25%float 108.25%float "draft" None 1767225600000 None.

(** An invoice with two rows whose client block has all four lines. *)
Definition fullInvoice : Invoice.t :=
  Invoice.mk "INV-202601-000001"
    (ClientInfo.mk "Acme" "billing@acme.test" (Some "1 Main St")
                   (Some "555-0100"))
    (castCompanyInfo None)
    [ Item.mk "Design" 2%float 50%float 100%float;
      Item.mk "Hosting" 1%float 20%float 20%float ]
    120%float 0%float 120%float "draft" None 1767225600000 None.

(** ** The first version of the layout routine

    [server.js] holds an earlier [generateInvoicePDF] as well, which draws
    every block at a fixed offset and knows no logo.  Its loop over the
    items is the one above. *)

Section FixedRenderer.

Context `{Host}.

Local Open Scope draw_scope.

Definition drawInvoiceFixed (invoiceData : Invoice.t) : Draw.M unit :=
  let companyInfo := Invoice.companyInfo invoiceData in
  let clientInfo := Invoice.clientInfo invoiceData in
  (* Company Header *)
  Draw.fontSize 20 ;;
  Draw.text (CompanyInfo.name companyInfo) 50 50 ;;
  Draw.fontSize 12 ;;
  Draw.text (CompanyInfo.address companyInfo) 50 80 ;;
  Draw.text (CompanyInfo.email companyInfo) 50 95 ;;
  Draw.text (CompanyInfo.phone companyInfo) 50 110 ;;
  (* Invoice Title and Number *)
  Draw.fontSize 24 ;;
  Draw.text "INVOICE" 400 50 ;;
  Draw.fontSize 12 ;;
  Draw.text ("Invoice #: " +s+ Invoice.invoiceNumber invoiceData) 400 80 ;;
  Draw.text ("Date: " +s+ toLocaleDateString (Invoice.createdAt invoiceData))
            400 95 ;;
  match Invoice.dueDate invoiceData with
  | Some d => Draw.text ("Due Date: " +s+ toLocaleDateString d) 400 110
  | None => Draw.ret tt
  end ;;
  (* Client Information *)
  Draw.fontSize 16 ;;
  Draw.text "Bill To:" 50 160 ;;
  Draw.fontSize 12 ;;
  Draw.text (ClientInfo.name clientInfo) 50 180 ;;
  Draw.text (ClientInfo.email clientInfo) 50 195 ;;
  match ClientInfo.address clientInfo with
  | Some a => if JS.truthy_string a then Draw.text a 50 210 else Draw.ret tt
  | None => Draw.ret tt
  end ;;
  match ClientInfo.phone clientInfo with
  | Some p => if JS.truthy_string p then Draw.text p 50 225 else Draw.ret tt
  | None => Draw.ret tt
  end ;;
  (* Items Table Header *)
  let tableTop := 280 in
  Draw.fontSize 12 ;;
  Draw.text "Description" 50 tableTop ;;
  Draw.text "Qty" 300 tableTop ;;
  Draw.text "Rate" 350 tableTop ;;
  Draw.text "Amount" 450 tableTop ;;
  Draw.moveTo 50 (tableTop + 15) ;;
  Draw.lineTo 550 (tableTop + 15) ;;
  Draw.stroke ;;
  (* Items *)
  let yPosition := tableTop + 30 in
  yPosition <- forEachItem (Invoice.items invoiceData) yPosition ;;
  (* Totals *)
  let yPosition := yPosition + 20 in
  Draw.moveTo 350 yPosition ;;
  Draw.lineTo 550 yPosition ;;
  Draw.stroke ;;
  let yPosition := yPosition + 10 in
  Draw.text "Subtotal:" 350 yPosition ;;
  Draw.text ("$" +s+ toFixed2 (Invoice.subtotal invoiceData))
            450 yPosition ;;
  yPosition <-
    (if JS.gt0 (Invoice.tax invoiceData) then
       let yPosition := yPosition + 20 in
       Draw.text "Tax:" 350 yPosition ;;
       Draw.text ("$" +s+ toFixed2 (Invoice.tax invoiceData))
                 450 yPosition ;;
       Draw.ret yPosition
     else Draw.ret yPosition) ;;
  let yPosition := yPosition + 20 in
  Draw.fontSize 14 ;;
  Draw.text "Total:" 350 yPosition ;;
  Draw.text ("$" +s+ toFixed2 (Invoice.total invoiceData)) 450 yPosition ;;
  (* Footer *)
  Draw.fontSize 10 ;;
  Draw.text "Thank you for your business!" 50 (yPosition + 80) ;;
  Draw.end_.

(** What [doc] holds when the first version reaches the end. *)
Definition renderedFixed (i : Invoice.t) : list op :=
  Draw.doc (Draw.exec (drawInvoiceFixed i)).

(** The phone line of the first version, and everything it draws from the
    table header on. *)
Definition phoneLineFixed (c : ClientInfo.t) : list op :=
  match ClientInfo.phone c with
  | Some p => if JS.truthy_string p then [Text p 50 225] else []
  | None => []
  end.

Definition tableAndBelowFixed (i : Invoice.t) : list op :=
  tableHeader 280
  ++ itemRows (Invoice.items i) 310
  ++ totalsBlock i (310 + 20 * Z.of_nat (List.length (Invoice.items i)) + 20)
  ++ footerBlock
       (310 + 20 * Z.of_nat (List.length (Invoice.items i)) + 20 + 10
        + (if JS.gt0 (Invoice.tax i) then 20 else 0) + 20 + 80).

(** Everything the current version draws from the table header on. *)
Definition tableAndBelow (logo : LogoAsset) (i : Invoice.t) : list op :=
  tableHeader (tableTop logo i)
  ++ itemRows (Invoice.items i) (rowY logo i 0)
  ++ totalsBlock i (ruleY logo i)
  ++ footerBlock (footerY logo i).

End FixedRenderer.

(** ** Variations of an invoice *)

Definition withPhone (p : option string) (i : Invoice.t) : Invoice.t :=
  let c := Invoice.clientInfo i in
  Invoice.mk (Invoice.invoiceNumber i)
    (ClientInfo.mk (ClientInfo.name c) (ClientInfo.email c)
                   (ClientInfo.address c) p)
    (Invoice.companyInfo i) (Invoice.items i)
    (Invoice.subtotal i) (Invoice.tax i) (Invoice.total i)
    (Invoice.status i) (Invoice.dueDate i) (Invoice.createdAt i)
    (Invoice.pdfPath i).

Definition withDueDate (d : option Date) (i : Invoice.t) : Invoice.t :=
  Invoice.mk (Invoice.invoiceNumber i) (Invoice.clientInfo i)
    (Invoice.companyInfo i) (Invoice.items i)
    (Invoice.subtotal i) (Invoice.tax i) (Invoice.total i)
    (Invoice.status i) d (Invoice.createdAt i) (Invoice.pdfPath i).

Definition withItems (items : list Item.t) (i : Invoice.t) : Invoice.t :=
  Invoice.mk (Invoice.invoiceNumber i) (Invoice.clientInfo i)
    (Invoice.companyInfo i) items
    (Invoice.subtotal i) (Invoice.tax i) (Invoice.total i)
    (Invoice.status i) (Invoice.dueDate i) (Invoice.createdAt i)
    (Invoice.pdfPath i).

Definition withStatus (s : string) (i : Invoice.t) : Invoice.t :=
  Invoice.mk (Invoice.invoiceNumber i) (Invoice.clientInfo i)
    (Invoice.companyInfo i) (Invoice.items i)
    (Invoice.subtotal i) (Invoice.tax i) (Invoice.total i)
    s (Invoice.dueDate i) (Invoice.createdAt i) (Invoice.pdfPath i).

(** ** The font size a text is drawn at

    [doc.fontSize(n)] holds for the texts that follow it.  [fontSizes x
    current ops] lists, in order, the sizes of the texts drawn in column
    [x], [current] being the size in effect before the first call. *)

Fixpoint fontSizes (x : Z) (current : Z) (ops : list op) : list Z :=
  match ops with
  | [] => []
  | FontSize n :: rest => fontSizes x n rest
  | Text _ x' _ :: rest =>
      if Z.eqb x' x
      then current :: fontSizes x current rest
      else fontSizes x current rest
  | _ :: rest => fontSizes x current rest
  end.

(** The size in effect after a sequence of calls. *)
Fixpoint sizeAfter (current : Z) (ops : list op) : Z :=
  match ops with
  | [] => current
  | FontSize n :: rest => sizeAfter n rest
  | _ :: rest => sizeAfter current rest
  end.

(** ** The file system and the store, as the other routes use them

    [fs.existsSync], [fs.createReadStream] and [fs.unlinkSync] on the written
    artifacts (the most recent write of a path is the file).  The store's
    primary key [_id] is not part of the model: a document is addressed by
    its invoice number, which the schema's [unique] index makes a key as
    well, so the [:id] of a route is an invoice number here. *)

Definition atPath (path : string) (f : string * list op) : bool :=
  String.eqb (fst f) path.

Definition existsSync (path : string) (w : World.t) : bool :=
  existsb (atPath path) (World.files w).

Definition readFile (path : string) (w : World.t) : option (list op) :=
  option_map snd (find (atPath path) (World.files w)).

Definition unlinkSync (path : string) (w : World.t) : World.t :=
  World.mk (World.logo w) (World.writable w)
           (filter (fun f => negb (atPath path f)) (World.files w))
           (World.console w) (World.store w) (World.now w).

Definition hasId (id : string) (j : Invoice.t) : bool :=
  String.eqb (Invoice.invoiceNumber j) id.

Definition findById (id : string) (w : World.t) : option Invoice.t :=
  find (hasId id) (World.store w).

(** The first document with the id, removed and updated. *)
Fixpoint removeFirst (id : string) (l : list Invoice.t) : list Invoice.t :=
  match l with
  | [] => []
  | j :: rest => if hasId id j then rest else j :: removeFirst id rest
  end.

Fixpoint updateFirst (id : string) (f : Invoice.t -> Invoice.t)
         (l : list Invoice.t) : list Invoice.t :=
  match l with
  | [] => []
  | j :: rest => if hasId id j then f j :: rest else j :: updateFirst id f rest
  end.

Definition withStore (l : list Invoice.t) (w : World.t) : World.t :=
  World.mk (World.logo w) (World.writable w) (World.files w)
           (World.console w) l (World.now w).

Definition findByIdAndDelete (id : string) (w : World.t) : World.t :=
  withStore (removeFirst id (World.store w)) w.

(** [findByIdAndUpdate(id, { status }, { new: true })]: the updated document,
    or [null]. *)
Definition findByIdAndUpdate (id : string) (status : string) (w : World.t)
  : option Invoice.t * World.t :=
  (option_map (withStatus status) (findById id w),
   withStore (updateFirst id (withStatus status) (World.store w)) w).

(** The clock moves on. *)
Definition atTime (t : Date) (w : World.t) : World.t :=
  World.mk (World.logo w) (World.writable w) (World.files w)
           (World.console w) (World.store w) t.

(** Mongoose throws on a query it cannot run (an id it cannot cast, a lost
    connection); the routes catch it. *)
Class Queries : Type := {
  queryThrows : string -> bool
}.

(** ** The routes on one invoice *)

Inductive Reply : Type :=
| ReplyError (status : Z) (error : string)
| ReplyInvoice (invoice : Invoice.t) (downloadUrl : string)
| ReplyUpdated (message : string) (invoice : Invoice.t)
| ReplyMessage (message : string)
| ReplyPdf (contentType contentDisposition : string) (content : list op)
| ReplyNoFile.

Definition downloadUrlOf (i : Invoice.t) : string :=
  "/api/invoices/" +s+ Invoice.invoiceNumber i +s+ "/download".

Definition pdfPathOf (i : Invoice.t) : string :=
  pathJoin invoicesDir ("invoice-" +s+ Invoice.invoiceNumber i +s+ ".pdf").

(** [['draft', 'sent', 'paid'].includes(status)] *)
Definition statusAllowed (status : string) : bool :=
  existsb (String.eqb status) ["draft"; "sent"; "paid"].

(** [!invoice.pdfPath || !fs.existsSync(invoice.pdfPath)] *)
Definition artifactMissing (invoice : Invoice.t) (w : World.t) : bool :=
  match Invoice.pdfPath invoice with
  | Some p => negb (JS.truthy_string p) || negb (existsSync p w)
  | None => true
  end.

(** The double quote character. *)
Definition dquote : string := String (ascii_of_nat 34) EmptyString.

Section Routes.

Context `{Host} `{RecordStore} `{Queries}.

(** The [catch] of a route. *)
Definition caught (logged error : string) (w : World.t) : Reply * World.t :=
  (ReplyError 500 error, World.log [logged] w).

(** [GET /api/invoices/:id] *)
Definition getInvoice (id : string) (w : World.t) : Reply * World.t :=
  if queryThrows id
  then caught "Error fetching invoice:" "Failed to fetch invoice" w
  else
    match findById id w with
    | None => (ReplyError 404 "Invoice not found", w)
    | Some invoice => (ReplyInvoice invoice (downloadUrlOf invoice), w)
    end.

(** The end of the download route: the headers, and the file piped to the
    response ([ReplyNoFile] when the read stream finds no file). *)
Definition streamPdf (invoice : Invoice.t) (w : World.t) : Reply * World.t :=
  match Invoice.pdfPath invoice with
  | Some pdfPath =>
      match readFile pdfPath w with
      | Some content =>
          (ReplyPdf "application/pdf"
             ("attachment; filename=" +s+ dquote +s+ "invoice-"
              +s+ Invoice.invoiceNumber invoice +s+ ".pdf" +s+ dquote)
             content,
           w)
      | None => (ReplyNoFile, w)
      end
  | None => caught "Error downloading invoice:" "Failed to download invoice" w
  end.

(** [GET /api/invoices/:id/download] *)
Definition downloadInvoice (id : string) (w : World.t) : Reply * World.t :=
  if queryThrows id
  then caught "Error downloading invoice:" "Failed to download invoice" w
  else
    match findById id w with
    | None => (ReplyError 404 "Invoice not found", w)
    | Some invoice =>
        if artifactMissing invoice w
        then
          (* Regenerate PDF if missing *)
          let pdfPath := pdfPathOf invoice in
          match generateInvoicePDF invoice pdfPath w with
          | (Rejected, w) =>
              caught "Error downloading invoice:" "Failed to download invoice" w
          | (Resolved _, w) =>
              let invoice := Invoice.with_pdfPath pdfPath invoice in
              match saveAgain invoice w with
              | None =>
                  caught "Error downloading invoice:"
                         "Failed to download invoice" w
              | Some w => streamPdf invoice w
              end
          end
        else streamPdf invoice w
    end.

(** [PATCH /api/invoices/:id/status]; a missing [status] is not one of the
    three. *)
Definition patchStatus (id : string) (status : option string) (w : World.t)
  : Reply * World.t :=
  match status with
  | None => (ReplyError 400 "Invalid status", w)
  | Some status =>
      if negb (statusAllowed status)
      then (ReplyError 400 "Invalid status", w)
      else if queryThrows id
      then caught "Error updating invoice status:"
                  "Failed to update invoice status" w
      else
        match findByIdAndUpdate id status w with
        | (None, _) => (ReplyError 404 "Invoice not found", w)
        | (Some invoice, w) =>
            (ReplyUpdated "Invoice status updated" invoice, w)
        end
  end.

(** [DELETE /api/invoices/:id] *)
Definition deleteInvoice (id : string) (w : World.t) : Reply * World.t :=
  if queryThrows id
  then caught "Error deleting invoice:" "Failed to delete invoice" w
  else
    match findById id w with
    | None => (ReplyError 404 "Invoice not found", w)
    | Some invoice =>
        (* Delete PDF file if exists *)
        let w :=
          match Invoice.pdfPath invoice with
          | Some pdfPath =>
              if JS.truthy_string pdfPath && existsSync pdfPath w
              then unlinkSync pdfPath w
              else w
          | None => w
          end in
        (ReplyMessage "Invoice deleted successfully",
         findByIdAndDelete id w)
    end.

End Routes.

(** The store keeps invoice numbers unique (the schema's [unique] index). *)
Definition UniqueNumbers (w : World.t) : Prop :=
  NoDup (map Invoice.invoiceNumber (World.store w)).

(** ** The digits of an invoice number *)

(** The character of a decimal digit. *)
Definition digitChar (k : Z) : ascii :=
  match k with
  | 0 => "0" | 1 => "1" | 2 => "2" | 3 => "3" | 4 => "4"
  | 5 => "5" | 6 => "6" | 7 => "7" | 8 => "8" | _ => "9"
  end%char.

(** The last six decimal digits of a number, and the last two. *)
Definition lastSix (n : Z) : string :=
  String (digitChar (n / 100000 mod 10))
  (String (digitChar (n / 10000 mod 10))
  (String (digitChar (n / 1000 mod 10))
  (String (digitChar (n / 100 mod 10))
  (String (digitChar (n / 10 mod 10))
  (String (digitChar (n mod 10)) EmptyString))))).

Definition lastTwo (n : Z) : string :=
  String (digitChar (n / 10 mod 10))
  (String (digitChar (n mod 10)) EmptyString).

(** One more digit in front of a little-endian numeral, the order in which
    [Pos.to_little_uint] produces the digits. *)
Definition consDigit (k : N) (l : Decimal.uint) : Decimal.uint :=
  match k with
  | 0 => Decimal.D0 l | 1 => Decimal.D1 l | 2 => Decimal.D2 l
  | 3 => Decimal.D3 l | 4 => Decimal.D4 l | 5 => Decimal.D5 l
  | 6 => Decimal.D6 l | 7 => Decimal.D7 l | 8 => Decimal.D8 l
  | _ => Decimal.D9 l
  end%N.

(** The reply of a download: the headers and the content. *)
Definition pdfReply (inv : Invoice.t) (content : list op) : Reply :=
  ReplyPdf "application/pdf"
    ("attachment; filename=" +s+ dquote +s+ "invoice-"
     +s+ Invoice.invoiceNumber inv +s+ ".pdf" +s+ dquote)
    content.

(** ** More sample data *)

#[export] Instance sampleQueries : Queries := {|
  queryThrows := fun _ => false
|}.

Definition hosting : Item.t := Item.mk "Hosting" 1%float 20%float 20%float.

(** The sample world after the sample create request. *)
Definition designWorld : World.t := snd (postInvoices designBody sampleWorld).

Definition designNumber : string := Invoice.invoiceNumber designInvoice.

(** The stored sample invoice, with its artifact path. *)
Definition storedDesign : Invoice.t :=
  Invoice.with_pdfPath (pdfPathOf designInvoice) designInvoice.

(** A world whose sink cannot be written, and a world that stores the sample
    invoice without an artifact. *)
Definition readOnlyWorld : World.t :=
  World.mk LogoMissing (fun _ => false) [] [] [] 1767225600000.

Definition orphanWorld : World.t :=
  World.mk LogoMissing (fun _ => true) [] [] [designInvoice] 1767225600000.

(** A request whose tax is NaN. *)
Definition nanTaxBody : Body.t :=
  Body.mk (Some acme) None (ItemsArray [design]) (JS.Number PrimFloat.nan)
          None None.

(** * Properties *)

(** ** Comparisons of JavaScript numbers

    The primitive comparisons are those of the IEEE-754 specification
    ([SFeqb], [SFltb], [SFleb] on the decoded value). *)

Lemma zero_not_positive (t : JS.number) :
  PrimFloat.eqb t 0%float = true -> JS.gt0 t = false.
Proof.
  unfold JS.gt0. rewrite eqb_spec, ltb_spec.
  change (Prim2SF 0%float) with (S754_zero false).
  destruct (Prim2SF t) as [s|s| |s m e]; try destruct s; cbn; congruence.
Qed.




(** ** The renderer *)

Section RendererFacts.

Context `{Host}.

(** Two explicit call sequences agree when they agree call by call, up to
    linear arithmetic on the coordinates. *)
Ltac same_ops :=
  repeat first
    [ reflexivity
    | apply (f_equal2 (@cons op))
    | apply (f_equal2 (@app op))
    | (f_equal; lia) ].

(** *** The routine draws exactly its blocks *)

Lemma forEachItem_rows (items : list Item.t) (y : Z) :
  forEachItem items y
  = (y + 20 * Z.of_nat (List.length items), Draw.mkOut (itemRows items y) []).
Proof.
  unfold itemRows.
  revert y; induction items as [|item rest IH]; intro y.
  - cbn [forEachItem rowBlocks List.concat List.length Z.of_nat].
    unfold Draw.ret. f_equal. lia.
  - cbn [forEachItem rowBlocks List.concat]. rewrite IH.
    unfold Draw.bind, Draw.text, Draw.emit, rowOps.
    cbn [Draw.doc Draw.warnings app].
    f_equal. cbn [List.length]. lia.
Qed.

Lemma drawInvoice_out (logo : LogoAsset) (i : Invoice.t) :
  Draw.exec (drawInvoice logo i)
  = Draw.mkOut (logoBlock logo ++ upperPart logo i ++ lowerPart logo i)
               (logoWarnings logo).
Proof.
  destruct i as [num [cn ce ca cp] co its sub tx tot st due cr pp].
  unfold drawInvoice, Draw.exec, upperPart, lowerPart, belowClientHead.
  unfold totalsBlock, taxLine, footerY, totalY, taxY, subtotalY, ruleY,
    afterRowsY, rowY, tableTop, clientInfoHeight, phoneLine,
    addressLine, clientHead, titleBlock, dueDateLine, headerBlock,
    clientY, invoiceTitleY, headerY, logoHeight.
  cbn [Invoice.companyInfo Invoice.clientInfo Invoice.items Invoice.tax
       Invoice.dueDate Invoice.subtotal Invoice.total Invoice.createdAt
       Invoice.invoiceNumber ClientInfo.address ClientInfo.phone
       ClientInfo.name ClientInfo.email JS.truthy_field].
  destruct logo as [| |msg]; destruct due as [d|];
    destruct ca as [[|a0 a]|]; destruct cp as [[|p0 p]|];
    destruct (JS.gt0 tx);
    cbn -[Z.add Z.mul Z.of_nat forEachItem itemRows String.append];
    rewrite forEachItem_rows;
    cbn -[Z.add Z.mul Z.of_nat forEachItem itemRows String.append];
    apply (f_equal2 Draw.mkOut); same_ops.
Qed.

Lemma rendered_parts (logo : LogoAsset) (i : Invoice.t) :
  rendered logo i = logoBlock logo ++ upperPart logo i ++ lowerPart logo i.
Proof. unfold rendered. now rewrite drawInvoice_out. Qed.

Lemma concat_rowBlocks (items : list Item.t) (y : Z) :
  List.concat (rowBlocks items y) = itemRows items y.
Proof. reflexivity. Qed.

Theorem rendered_blocks (logo : LogoAsset) (i : Invoice.t) :
  rendered logo i = List.concat (blocks logo i).
Proof.
  rewrite rendered_parts. unfold blocks, upperPart, lowerPart,
    belowClientHead, clientBlock.
  rewrite !concat_app, concat_rowBlocks.
  cbn [List.concat]. rewrite !app_nil_r, <- !app_assoc. reflexivity.
Qed.

(** *** Shifting a block moves its origin *)

Lemma shift_headerBlock (d : Z) (c : CompanyInfo.t) (y : Z) :
  map (shiftY d) (headerBlock c y) = headerBlock c (y + d).
Proof. unfold headerBlock; cbn [map shiftY]; same_ops. Qed.

Lemma shift_titleBlock (d : Z) (i : Invoice.t) (y : Z) :
  map (shiftY d) (titleBlock i y) = titleBlock i (y + d).
Proof.
  unfold titleBlock, dueDateLine.
  destruct (Invoice.dueDate i); cbn [map shiftY app]; same_ops.
Qed.

Lemma shift_clientHead (d : Z) (c : ClientInfo.t) (y : Z) :
  map (shiftY d) (clientHead c y) = clientHead c (y + d).
Proof. unfold clientHead; cbn [map shiftY]; same_ops. Qed.

Lemma shift_addressLine (d : Z) (c : ClientInfo.t) (y : Z) :
  map (shiftY d) (addressLine c y) = addressLine c (y + d).
Proof.
  unfold addressLine.
  destruct (ClientInfo.address c) as [a|]; [destruct (JS.truthy_string a)|];
    cbn [map shiftY]; same_ops.
Qed.

Lemma shift_phoneLine (d : Z) (c : ClientInfo.t) (y : Z) :
  map (shiftY d) (phoneLine c y) = phoneLine c (y + d).
Proof.
  unfold phoneLine.
  destruct (ClientInfo.phone c) as [p|]; [destruct (JS.truthy_string p)|];
    cbn [map shiftY]; same_ops.
Qed.

Lemma shift_tableHeader (d y : Z) :
  map (shiftY d) (tableHeader y) = tableHeader (y + d).
Proof. unfold tableHeader; cbn [map shiftY]; same_ops. Qed.

Lemma shift_itemRows (d : Z) (items : list Item.t) (y : Z) :
  map (shiftY d) (itemRows items y) = itemRows items (y + d).
Proof.
  unfold itemRows.
  revert y; induction items as [|item rest IH]; intro y; [reflexivity|].
  cbn [rowBlocks List.concat]. rewrite map_app, IH.
  replace (y + 20 + d) with (y + d + 20) by lia.
  reflexivity.
Qed.

Lemma shift_totalsBlock (d : Z) (i : Invoice.t) (y : Z) :
  map (shiftY d) (totalsBlock i y) = totalsBlock i (y + d).
Proof.
  unfold totalsBlock, taxLine.
  destruct (JS.gt0 (Invoice.tax i)); cbn [map shiftY app]; same_ops.
Qed.

Lemma shift_footerBlock (d y : Z) :
  map (shiftY d) (footerBlock y) = footerBlock (y + d).
Proof. unfold footerBlock; cbn [map shiftY]; same_ops. Qed.

(** *** The logo and the origins below it *)

Lemma lowerPart_logo (l1 l2 : LogoAsset) (i : Invoice.t) :
  lowerPart l2 i = map (shiftY (clientY l2 - clientY l1)) (lowerPart l1 i).
Proof.
  unfold lowerPart, belowClientHead.
  rewrite !map_app, shift_clientHead, shift_addressLine, shift_phoneLine,
    shift_tableHeader, shift_itemRows, shift_totalsBlock, shift_footerBlock.
  unfold footerY, totalY, taxY, subtotalY, ruleY, afterRowsY, rowY, tableTop.
  destruct (JS.gt0 (Invoice.tax i)); same_ops.
Qed.

(** C1 (as the code has it): with the logo drawn, the company header and the
    invoice-title block start 70 units lower than without it, while the
    client block and every block below it start 60 units lower, the client
    origin being [max 160 (headerY + 100)]; the logo image is the one
    additional call, and texts, columns and font sizes are the same. *)
Theorem logo_shifts_layout (i : Invoice.t) :
  headerY LogoReadable = headerY LogoMissing + 70
  /\ invoiceTitleY LogoReadable = invoiceTitleY LogoMissing + 70
  /\ clientY LogoReadable = clientY LogoMissing + 60
  /\ rendered LogoMissing i = upperPart LogoMissing i ++ lowerPart LogoMissing i
  /\ rendered LogoReadable i
     = Image logoPath 50 50 120 60
       :: map (shiftY 70) (upperPart LogoMissing i)
       ++ map (shiftY 60) (lowerPart LogoMissing i).
Proof.
  repeat split; try reflexivity.
  - apply (rendered_parts LogoMissing).
  - rewrite (rendered_parts LogoReadable).
    rewrite (lowerPart_logo LogoMissing LogoReadable).
    unfold upperPart. rewrite map_app, shift_headerBlock, shift_titleBlock.
    reflexivity.
Qed.

(** *** The totals *)

Lemma lineOffsets_app (s : string) (x : Z) (a b : list op) :
  lineOffsets s x (a ++ b) = lineOffsets s x a ++ lineOffsets s x b.
Proof.
  induction a as [|o a IH]; [reflexivity|].
  destruct o; cbn [app lineOffsets]; try exact IH.
  destruct (Z.eqb x0 x && String.eqb s0 s); cbn [app]; now rewrite IH.
Qed.

(** No row prints, in the Rate column, a text that does not start with the
    dollar sign. *)
Lemma lineOffsets_itemRows (c : ascii) (s : string) (items : list Item.t)
      (y : Z) :
  Ascii.eqb "$" c = false ->
  lineOffsets (String c s) 350 (itemRows items y) = [].
Proof.
  intro Hc. unfold itemRows.
  revert y; induction items as [|item rest IH]; intro y; [reflexivity|].
  cbn [rowBlocks List.concat]. rewrite lineOffsets_app, IH, app_nil_r.
  unfold rowOps. cbn -[Ascii.eqb]. rewrite Hc. reflexivity.
Qed.

(** The offsets of the lines labelled "Subtotal:", "Tax:" and "Total:". *)
Lemma totals_lines (logo : LogoAsset) (i : Invoice.t) :
  let ops := rendered logo i in
  lineOffsets "Subtotal:" 350 ops = [subtotalY logo i]
  /\ lineOffsets "Tax:" 350 ops
     = (if JS.gt0 (Invoice.tax i) then [subtotalY logo i + 20] else [])
  /\ lineOffsets "Total:" 350 ops
     = [subtotalY logo i + (if JS.gt0 (Invoice.tax i) then 20 else 0) + 20].
Proof.
  cbv zeta. rewrite rendered_parts.
  unfold upperPart, lowerPart, belowClientHead.
  rewrite !lineOffsets_app, !lineOffsets_itemRows by reflexivity.
  unfold subtotalY, totalsBlock, taxLine, footerBlock, tableHeader, phoneLine,
    addressLine, clientHead, titleBlock, dueDateLine, headerBlock, logoBlock.
  destruct logo, (Invoice.dueDate i),
    (ClientInfo.address (Invoice.clientInfo i)) as [[|a0 a]|],
    (ClientInfo.phone (Invoice.clientInfo i)) as [[|p0 p]|],
    (JS.gt0 (Invoice.tax i));
    cbn -[Z.add]; repeat split; same_ops.
Qed.

(** C2: the "Subtotal:" line is always drawn; when tax is 0 no "Tax:" line
    is drawn and "Total:" is one line height (20) below "Subtotal:"; when
    tax > 0 the "Tax:" line is 20 below "Subtotal:" and "Total:" is 40
    below it. *)
Theorem totals_follow_tax (logo : LogoAsset) (i : Invoice.t) :
  let ops := rendered logo i in
  let y := subtotalY logo i in
  lineOffsets "Subtotal:" 350 ops = [y]
  /\ (PrimFloat.eqb (Invoice.tax i) 0%float = true ->
      lineOffsets "Tax:" 350 ops = []
      /\ lineOffsets "Total:" 350 ops = [y + 20])
  /\ (PrimFloat.ltb 0%float (Invoice.tax i) = true ->
      lineOffsets "Tax:" 350 ops = [y + 20]
      /\ lineOffsets "Total:" 350 ops = [y + 40]).
Proof.
  cbv zeta. destruct (totals_lines logo i) as (Hs & Ht & Hl).
  split; [exact Hs|]. split; intro Htax.
  - apply zero_not_positive in Htax. rewrite Htax in Ht, Hl.
    split; [exact Ht|]. rewrite Hl. f_equal. lia.
  - fold (JS.gt0 (Invoice.tax i)) in Htax. rewrite Htax in Ht, Hl.
    split; [exact Ht|]. rewrite Hl. f_equal. lia.
Qed.

(** *** The client block and its conditional lines *)

Lemma belowClientHead_address (logo : LogoAsset) (i : Invoice.t)
      (a : string) (a0 : option string) :
  JS.truthy_string a = true ->
  JS.truthy_field a0 = false ->
  belowClientHead logo (Invoice.with_address a0 i)
  = map (shiftY (-15))
        (belowClientHead logo (Invoice.with_address (Some a) i)).
Proof.
  intros Ha Ha0. unfold belowClientHead.
  rewrite !map_app, shift_phoneLine, shift_tableHeader, shift_itemRows,
    shift_totalsBlock, shift_footerBlock.
  unfold footerY, totalY, taxY, subtotalY, ruleY, afterRowsY, rowY, tableTop,
    clientInfoHeight, phoneLine, totalsBlock, taxLine, Invoice.with_address.
  cbn [Invoice.clientInfo Invoice.items Invoice.tax Invoice.subtotal
       Invoice.total ClientInfo.address ClientInfo.phone].
  cbn [JS.truthy_field]. rewrite Ha, Ha0.
  destruct (JS.gt0 (Invoice.tax i));
    destruct (ClientInfo.phone (Invoice.clientInfo i)) as [p|];
    cbn [JS.truthy_field];
    try destruct (JS.truthy_string p);
    same_ops.
Qed.

(** C3: take an invoice and give it an address that the code draws ([a], a
    non-empty string), or none (a missing or empty one).  Both documents
    start with the same calls, up to the client's e-mail line; the first
    then draws the address at [clientY + 50]; everything after it (phone
    line, item table, totals, footer) is drawn in the second document 15
    units higher and otherwise unchanged; and a phone line, when there is
    one, is drawn in the second document at [clientY + 50]. *)
Theorem address_absent_shifts_up (logo : LogoAsset) (i : Invoice.t)
        (a : string) (a0 : option string) :
  JS.truthy_string a = true ->
  JS.truthy_field a0 = false ->
  let present := Invoice.with_address (Some a) i in
  let absent := Invoice.with_address a0 i in
  let before :=
    logoBlock logo ++ upperPart logo i
    ++ clientHead (Invoice.clientInfo i) (clientY logo) in
  rendered logo present
  = before ++ Text a 50 (clientY logo + 50) :: belowClientHead logo present
  /\ rendered logo absent
     = before ++ map (shiftY (-15)) (belowClientHead logo present)
  /\ (forall p,
        ClientInfo.phone (Invoice.clientInfo i) = Some p ->
        JS.truthy_string p = true ->
        exists rest,
          rendered logo absent
          = before ++ Text p 50 (clientY logo + 50) :: rest).
Proof.
  intros Ha Ha0. cbv zeta. split; [|split].
  - rewrite rendered_parts. unfold lowerPart at 1, addressLine.
    cbn [Invoice.with_address Invoice.clientInfo ClientInfo.address].
    rewrite Ha, <- !app_assoc. reflexivity.
  - rewrite rendered_parts. unfold lowerPart at 1, addressLine.
    rewrite (belowClientHead_address logo i a a0 Ha Ha0).
    cbn [Invoice.with_address Invoice.clientInfo ClientInfo.address].
    replace (match a0 with
             | Some a1 =>
                 if JS.truthy_string a1 then [Text a1 50 (clientY logo + 50)]
                 else []
             | None => []
             end) with (@nil op)
      by (destruct a0 as [a1|]; [cbn in Ha0; rewrite Ha0|]; reflexivity).
    rewrite <- !app_assoc. reflexivity.
  - intros p Hp Htp. rewrite rendered_parts.
    unfold lowerPart at 1, addressLine, belowClientHead, phoneLine.
    cbn [Invoice.with_address Invoice.clientInfo ClientInfo.address
         ClientInfo.phone].
    rewrite Hp, Htp, Ha0.
    replace (match a0 with
             | Some a1 =>
                 if JS.truthy_string a1 then [Text a1 50 (clientY logo + 50)]
                 else []
             | None => []
             end) with (@nil op)
      by (destruct a0 as [a1|]; [cbn in Ha0; rewrite Ha0|]; reflexivity).
    eexists. rewrite <- !app_assoc. cbn [app].
    rewrite Z.add_0_r. reflexivity.
Qed.

(** *** The item table *)

Lemma nthRow_itemRows (items : list Item.t) (y : Z) (k : nat) (item : Item.t) :
  nth_error items k = Some item ->
  nthRow k (itemRows items y) = rowOps item (y + 20 * Z.of_nat k).
Proof.
  unfold nthRow, itemRows.
  revert y k; induction items as [|it rest IH]; intros y k Hk.
  - destruct k; discriminate.
  - destruct k as [|k].
    + injection Hk as ->. cbn [rowBlocks List.concat Nat.mul skipn].
      unfold rowOps at 1. cbn [app firstn].
      unfold rowOps. same_ops.
    + cbn [nth_error] in Hk. cbn [rowBlocks List.concat].
      replace (4 * S k)%nat with (S (S (S (S (4 * k))))) by lia.
      unfold rowOps at 1. cbn [app skipn].
      rewrite (IH (y + 20) k Hk). unfold rowOps. same_ops.
Qed.

Lemma clientBlock_above_table (logo : LogoAsset) (i : Invoice.t)
      (s : string) (x y : Z) :
  In (Text s x y) (clientBlock (Invoice.clientInfo i) (clientY logo)) ->
  y < tableTop logo i.
Proof.
  unfold clientBlock, clientHead, addressLine, phoneLine, tableTop,
    clientInfoHeight.
  destruct (ClientInfo.address (Invoice.clientInfo i)) as [a|];
    [destruct (JS.truthy_string a) eqn:Ea|];
    (destruct (ClientInfo.phone (Invoice.clientInfo i)) as [p|];
     [destruct (JS.truthy_string p) eqn:Ep|]);
    cbn [JS.truthy_field app In]; rewrite ?Ea, ?Ep;
    intros Hin; repeat destruct Hin as [Hin|Hin];
    try discriminate; try contradiction;
    injection Hin as _ _ <-; lia.
Qed.

Lemma clientBlock_last (logo : LogoAsset) (i : Invoice.t) :
  exists s y,
    last (clientBlock (Invoice.clientInfo i) (clientY logo)) End_
    = Text s 50 y.
Proof.
  unfold clientBlock, clientHead, addressLine, phoneLine.
  destruct (ClientInfo.address (Invoice.clientInfo i)) as [a|];
    [destruct (JS.truthy_string a)|];
    (destruct (ClientInfo.phone (Invoice.clientInfo i)) as [p|];
     [destruct (JS.truthy_string p)|]);
    cbn [app last]; eauto.
Qed.

(** C4: for an invoice with at least one item, the document is the upper
    blocks, the client block, the table header at [tableTop], the rows, the
    totals and the footer; the last line of the client block, and every line
    of it, is strictly above the table header; row [k] is the four texts of
    the [k]-th item of the input, at offset [rowY k]; and consecutive rows
    are one row height (20) apart, the first one 30 below the header. *)
Theorem rows_below_client_block (logo : LogoAsset) (i : Invoice.t) :
  Invoice.items i <> [] ->
  let c := clientBlock (Invoice.clientInfo i) (clientY logo) in
  let rows := itemRows (Invoice.items i) (rowY logo i 0) in
  rendered logo i
  = logoBlock logo ++ upperPart logo i ++ c
    ++ tableHeader (tableTop logo i) ++ rows
    ++ totalsBlock i (ruleY logo i) ++ footerBlock (footerY logo i)
  /\ origin (tableHeader (tableTop logo i)) = Some (tableTop logo i)
  /\ (exists s y, last c End_ = Text s 50 y /\ y < tableTop logo i)
  /\ (forall s x y, In (Text s x y) c -> y < tableTop logo i)
  /\ (forall k item,
        nth_error (Invoice.items i) k = Some item ->
        nthRow k rows = rowOps item (rowY logo i k))
  /\ (exists item,
        nth_error (Invoice.items i) 0 = Some item
        /\ nthRow 0 rows = rowOps item (tableTop logo i + 30))
  /\ (forall k,
        (S k < List.length (Invoice.items i))%nat ->
        rowY logo i (S k) = rowY logo i k + 20).
Proof.
  intros Hn. cbv zeta. repeat split.
  - rewrite rendered_parts. unfold lowerPart, belowClientHead, clientBlock.
    rewrite <- !app_assoc. reflexivity.
  - destruct (clientBlock_last logo i) as (s & y & Hl).
    exists s, y. split; [exact Hl|].
    apply (clientBlock_above_table logo i s 50 y).
    rewrite <- Hl.
    destruct (exists_last (l := clientBlock (Invoice.clientInfo i)
                                             (clientY logo))) as (l' & o & Ho).
    + unfold clientBlock, clientHead. discriminate.
    + rewrite Ho, last_last. apply in_or_app. right. left. reflexivity.
  - apply clientBlock_above_table.
  - intros k item Hk. rewrite (nthRow_itemRows _ _ k item Hk).
    unfold rowY. same_ops.
  - destruct (Invoice.items i) as [|item rest] eqn:E; [contradiction|].
    exists item. split; [reflexivity|].
    rewrite (nthRow_itemRows (item :: rest) _ 0%nat item eq_refl).
    unfold rowY. same_ops.
  - intros k _. unfold rowY. lia.
Qed.

(** *** The cursor *)

Lemma StronglySorted_app (a b : list Z) :
  StronglySorted Z.le a -> StronglySorted Z.le b ->
  (forall x y, In x a -> In y b -> x <= y) ->
  StronglySorted Z.le (a ++ b).
Proof.
  intros Ha Hb Hab. induction Ha as [|x a Ha IH Hx]; [exact Hb|].
  cbn [app]. constructor.
  - apply IH. intros u v Hu Hv. apply Hab; [now right|exact Hv].
  - apply Forall_app. split; [exact Hx|].
    apply Forall_forall. intros v Hv. apply Hab; [now left|exact Hv].
Qed.

Lemma cursor_app (a b : list (list op)) :
  cursor (a ++ b) = cursor a ++ cursor b.
Proof. apply flat_map_app. Qed.

Lemma cursor_rowBlocks (items : list Item.t) (y : Z) :
  cursor (rowBlocks items y)
  = map (fun k => y + 20 * Z.of_nat k) (seq 0 (List.length items)).
Proof.
  revert y; induction items as [|item rest IH]; intro y; [reflexivity|].
  cbn [rowBlocks List.length seq map]. unfold cursor in *.
  cbn [flat_map origin rowOps opY app]. rewrite IH, <- seq_shift, map_map.
  f_equal; [lia|]. apply map_ext. intro k. lia.
Qed.

Lemma stacked_sorted (y : Z) (n start : nat) :
  StronglySorted Z.le (map (fun k => y + 20 * Z.of_nat k) (seq start n)).
Proof.
  revert start; induction n as [|n IH]; intro start; [constructor|].
  cbn [seq map]. constructor; [apply IH|].
  apply Forall_forall. intros v Hv.
  apply in_map_iff in Hv as (k & <- & Hk). apply in_seq in Hk. lia.
Qed.

(** C9: the successive block origins of one render (the logo region when
    a logo is drawn, then header, title, client block, table top, each item
    row, totals, footer) never decrease; nor do the offsets inside the
    totals (rule, Subtotal, Total) down to the footer. *)
Theorem cursor_monotone (logo : LogoAsset) (i : Invoice.t) :
  rendered logo i = List.concat (blocks logo i)
  /\ cursor (blocks logo i)
     = cursor [logoBlock logo]
       ++ [headerY logo; invoiceTitleY logo; clientY logo; tableTop logo i]
       ++ map (rowY logo i) (seq 0 (List.length (Invoice.items i)))
       ++ [ruleY logo i; footerY logo i]
  /\ StronglySorted Z.le (cursor (blocks logo i))
  /\ StronglySorted Z.le
       [ruleY logo i; subtotalY logo i; totalY logo i; footerY logo i].
Proof.
  assert (Hc : cursor (blocks logo i)
     = cursor [logoBlock logo]
       ++ [headerY logo; invoiceTitleY logo; clientY logo; tableTop logo i]
       ++ map (rowY logo i) (seq 0 (List.length (Invoice.items i)))
       ++ [ruleY logo i; footerY logo i]).
  { unfold blocks.
    change [logoBlock logo; headerBlock (Invoice.companyInfo i) (headerY logo);
            titleBlock i (invoiceTitleY logo);
            clientBlock (Invoice.clientInfo i) (clientY logo);
            tableHeader (tableTop logo i)]
      with ([logoBlock logo]
            ++ [headerBlock (Invoice.companyInfo i) (headerY logo);
                titleBlock i (invoiceTitleY logo);
                clientBlock (Invoice.clientInfo i) (clientY logo);
                tableHeader (tableTop logo i)]).
    rewrite <- app_assoc, !cursor_app, cursor_rowBlocks.
    f_equal. f_equal. f_equal. apply map_ext. intro k. unfold rowY. lia. }
  split; [apply rendered_blocks|]. split; [exact Hc|].
  split;
    [|unfold footerY, totalY, taxY, subtotalY;
      destruct (JS.gt0 (Invoice.tax i)); repeat constructor; lia].
  rewrite Hc.
  assert (Hrows : forall v,
             In v (map (rowY logo i) (seq 0 (List.length (Invoice.items i)))) ->
             tableTop logo i + 30 <= v /\ v + 20 <= afterRowsY logo i).
  { intros v Hv. apply in_map_iff in Hv as (k & <- & Hk).
    apply in_seq in Hk. unfold afterRowsY, rowY. lia. }
  assert (Hfoot : ruleY logo i <= footerY logo i).
  { unfold footerY, totalY, taxY, subtotalY.
    destruct (JS.gt0 (Invoice.tax i)); lia. }
  assert (Htop : clientY logo + 85 <= tableTop logo i).
  { unfold tableTop, clientInfoHeight.
    destruct (JS.truthy_field _), (JS.truthy_field _); lia. }
  assert (Hhead : 50 <= headerY logo /\ headerY logo <= invoiceTitleY logo
                  /\ invoiceTitleY logo <= clientY logo).
  { unfold clientY, invoiceTitleY, headerY, logoHeight.
    destruct logo; lia. }
  assert (Hrule : afterRowsY logo i + 20 = ruleY logo i) by reflexivity.
  assert (Hafter : tableTop logo i + 30 <= afterRowsY logo i).
  { unfold afterRowsY, rowY. lia. }
  apply StronglySorted_app; [| apply StronglySorted_app;
                               [| apply StronglySorted_app |] |].
  - destruct logo; cbn; repeat constructor.
  - repeat constructor; lia.
  - unfold rowY. apply stacked_sorted.
  - repeat constructor; lia.
  - intros x y Hx Hy. apply Hrows in Hx.
    cbn [In] in Hy. intuition lia.
  - intros x y Hx Hy. cbn [In] in Hx. apply in_app_or in Hy as [Hy|Hy].
    + apply Hrows in Hy. intuition lia.
    + cbn [In] in Hy. intuition lia.
  - intros x y Hx Hy.
    assert (x = 50) as ->
      by (destruct logo; cbn in Hx; intuition congruence).
    apply in_app_or in Hy as [Hy|Hy]; [cbn [In] in Hy; intuition lia|].
    apply in_app_or in Hy as [Hy|Hy].
    + apply Hrows in Hy. intuition lia.
    + cbn [In] in Hy. intuition lia.
Qed.

(** *** An unreadable logo *)

(** C7: when the logo file exists and [doc.image] throws, the routine draws
    the document it draws without a logo (reserved height 0), the promise
    settles as it does without a logo and resolves when the sink can be
    written, and the error only reaches the console. *)
Theorem unreadable_logo_as_missing (message : string) (i : Invoice.t)
        (outputPath : string) (w : World.t) :
  World.logo w = LogoUnreadable message ->
  let w0 := World.with_logo LogoMissing w in
  logoHeight (LogoUnreadable message) = 0
  /\ rendered (LogoUnreadable message) i = rendered LogoMissing i
  /\ fst (generateInvoicePDF i outputPath w)
     = fst (generateInvoicePDF i outputPath w0)
  /\ World.files (snd (generateInvoicePDF i outputPath w))
     = World.files (snd (generateInvoicePDF i outputPath w0))
  /\ World.console (snd (generateInvoicePDF i outputPath w))
     = World.console w ++ ["Could not load logo: " +s+ message]
  /\ (World.writable w outputPath = true ->
      fst (generateInvoicePDF i outputPath w) = Resolved outputPath
      /\ World.files (snd (generateInvoicePDF i outputPath w))
         = (outputPath, rendered LogoMissing i) :: World.files w).
Proof.
  intros Hlogo. cbv zeta.
  assert (Hsame : rendered (LogoUnreadable message) i = rendered LogoMissing i)
    by (rewrite !rendered_parts; reflexivity).
  unfold generateInvoicePDF. rewrite Hlogo.
  cbn [World.with_logo World.logo].
  rewrite !drawInvoice_out. cbn [Draw.doc Draw.warnings logoWarnings].
  rewrite <- !rendered_parts, Hsame.
  cbn [World.log World.writable World.with_logo].
  destruct (World.writable w outputPath);
    cbn [fst snd World.write World.files World.console];
    repeat split; try reflexivity; try exact Hsame; try discriminate.
Qed.

End RendererFacts.

(** ** The create route *)

Section CreateFacts.

Context `{Host} `{RecordStore}.

(** *** The totals the route computes *)

Lemma processItems_from (items : list ItemReq.t) (acc : list Item.t)
      (subtotal : JS.number) :
  fold_left
    (fun '(processedItems, subtotal) item =>
       let amount := PrimFloat.mul (ItemReq.quantity item) (ItemReq.rate item) in
       (processedItems
          ++ [Item.mk (ItemReq.description item) (ItemReq.quantity item)
                      (ItemReq.rate item) amount],
        PrimFloat.add subtotal amount))
    items (acc, subtotal)
  = (acc ++ map processItem items,
     fold_left PrimFloat.add (map Item.amount (map processItem items))
               subtotal).
Proof.
  revert acc subtotal; induction items as [|item rest IH]; intros acc subtotal.
  - cbn. now rewrite app_nil_r.
  - cbn [fold_left map]. rewrite IH, <- app_assoc. reflexivity.
Qed.

Lemma processItems_map (items : list ItemReq.t) :
  processItems items
  = (map processItem items, sumOf (map Item.amount (map processItem items))).
Proof. unfold processItems, sumOf. now rewrite processItems_from. Qed.

(** The document the route builds, field by field. *)
Lemma newInvoice_some (body : Body.t) (now : Date) (inv : Invoice.t) :
  newInvoice body now = Some inv ->
  Invoice.invoiceNumber inv = generateInvoiceNumber now
  /\ Invoice.items inv = map processItem (elementsOf (Body.items body))
  /\ Invoice.subtotal inv = sumOf (map Item.amount (Invoice.items inv))
  /\ Invoice.pdfPath inv = None
  /\ castToNumber (JS.or_zero (Body.tax body)) = Some (Invoice.tax inv)
  /\ exists total,
       plus (Invoice.subtotal inv) (JS.or_zero (Body.tax body)) = Some total
       /\ castToNumber total = Some (Invoice.total inv).
Proof.
  unfold newInvoice. rewrite processItems_map.
  destruct (plus _ _) as [total|] eqn:Hp; [|discriminate].
  destruct (castToNumber (JS.or_zero _)) as [t|]; [|discriminate].
  destruct (castToNumber total) as [tt|] eqn:Ht; [|discriminate].
  intros [= <-].
  cbn [Invoice.invoiceNumber Invoice.items Invoice.subtotal Invoice.pdfPath
       Invoice.tax Invoice.total].
  repeat apply conj; try reflexivity. now exists total.
Qed.





(** *** What the route leaves in the store *)

Lemma generateInvoicePDF_store (i : Invoice.t) (p : string) (w : World.t) :
  World.store (snd (generateInvoicePDF i p w)) = World.store w.
Proof.
  unfold generateInvoicePDF.
  destruct (World.writable _ p); reflexivity.
Qed.

Lemma replace_store (i inv : Invoice.t) (w : World.t) :
  In inv (World.store (World.replace i w)) ->
  In inv (World.store w) \/ inv = i.
Proof.
  cbn [World.replace World.store]. intro Hin.
  apply in_map_iff in Hin as (j & Hj & Hin).
  destruct (String.eqb _ _); subst; auto.
Qed.

Lemma postInvoices_outcome (body : Body.t) (w : World.t) :
  Outcome body w (postInvoices body w).
Proof.
  unfold postInvoices.
  destruct (clientInfoRejected _) eqn:Hc; [now constructor|].
  destruct (itemsRejected _) eqn:Hi; [now constructor|].
  destruct (newInvoice body (World.now w)) as [invoice|] eqn:Hnew;
    [|now apply NotSaved].
  unfold saveNew.
  destruct (accepts invoice && _) eqn:Hs; [|now apply NotSaved].
  destruct (generateInvoicePDF invoice _ (World.insert invoice w))
    as [[p|] w2] eqn:Hg.
  - assert (Hst : World.store w2 = invoice :: World.store w).
    { change w2 with (snd (Resolved p, w2)). rewrite <- Hg.
      now rewrite generateInvoicePDF_store. }
    unfold saveAgain.
    destruct (accepts (Invoice.with_pdfPath _ invoice)).
    + apply SavedAndRendered; [exact Hnew|]. cbn [World.replace World.store].
      rewrite Hst. cbn [map Invoice.with_pdfPath Invoice.invoiceNumber].
      now rewrite String.eqb_refl.
    + apply (SavedOnly _ _ invoice); [exact Hnew|exact Hst].
  - apply (SavedOnly _ _ invoice); [exact Hnew|].
    cbn [failed World.log World.store].
    change w2 with (snd (Rejected, w2)). rewrite <- Hg.
    now rewrite generateInvoicePDF_store.
Qed.

Lemma outcome_store (body : Body.t) (w : World.t) (r : Response * World.t)
      (inv : Invoice.t) :
  Outcome body w r ->
  In inv (World.store (snd r)) ->
  In inv (World.store w)
  \/ exists invoice,
       newInvoice body (World.now w) = Some invoice
       /\ (inv = invoice \/ exists p, inv = Invoice.with_pdfPath p invoice).
Proof.
  intros [Hc|Hc Hi|w' Hs|invoice w' Hnew Hs|invoice w' p Hnew Hs] Hin;
    cbn [snd] in Hin; try rewrite Hs in Hin; auto.
  - destruct Hin as [<-|Hin]; [right; exists invoice|]; auto.
  - destruct Hin as [<-|Hin]; [right; exists invoice; eauto|].
    apply in_map_iff in Hin as (j & Hj & Hin).
    destruct (String.eqb _ _); subst; [right; exists invoice; eauto|auto].
Qed.


(** *** A document the store takes *)






(** *** Validation *)

Lemma fails_validation_rejected (body : Body.t) :
  FailsValidation body ->
  clientInfoRejected (Body.clientInfo body) = true
  \/ itemsRejected (Body.items body) = true.
Proof.
  unfold clientInfoRejected, itemsRejected.
  intros [Hc|c Hc Hn|c Hc He|Hi|t Hi|Hi];
    try rewrite Hc; try rewrite Hn; try rewrite He; try rewrite Hi; cbn;
    auto using orb_true_r.
Qed.

(** C6: a request whose clientInfo, client name or client email is missing,
    or whose item list is missing, not an array or empty, is answered with
    status 400 and leaves the world as it was: nothing is stored, nothing is
    rendered or written. *)
Theorem invalid_request_rejected (body : Body.t) (w : World.t) :
  FailsValidation body ->
  exists error, postInvoices body w = (Status400 error, w).
Proof.
  intro Hf. apply fails_validation_rejected in Hf.
  unfold postInvoices.
  destruct (clientInfoRejected _); [eauto|].
  destruct Hf as [Hf|Hf]; [discriminate|]. rewrite Hf. eauto.
Qed.

(** *** Negative tax *)


End CreateFacts.

(** ** Concrete runs *)

(** C1, the claim as stated fails: for the sample invoice the document drawn
    with the logo is not the logo image followed by the logo-free document
    moved down by 70; "Bill To:" is at 160 without the logo and at 220, not
    230, with it. *)
Lemma logo_shift_is_not_uniform :
  rendered LogoReadable designInvoice
  <> Image logoPath 50 50 120 60
     :: map (shiftY 70) (rendered LogoMissing designInvoice)
  /\ lineOffsets "Bill To:" 50 (rendered LogoMissing designInvoice) = [160]
  /\ lineOffsets "Bill To:" 50 (rendered LogoReadable designInvoice) = [220]
  /\ lineOffsets "INVOICE" 400 (rendered LogoMissing designInvoice) = [50]
  /\ lineOffsets "INVOICE" 400 (rendered LogoReadable designInvoice) = [120].
Proof.
  split; [|repeat split; vm_compute; reflexivity].
  intro Heq.
  assert (Hl : lineOffsets "Bill To:" 50 (rendered LogoReadable designInvoice)
               = lineOffsets "Bill To:" 50
                   (Image logoPath 50 50 120 60
                    :: map (shiftY 70) (rendered LogoMissing designInvoice)))
    by now rewrite Heq.
  vm_compute in Hl. discriminate Hl.
Qed.

(** C2 on the two end-to-end scenarios: no tax, and [tax = 8.25]. *)
Lemma totals_follow_tax_witness :
  (PrimFloat.eqb (Invoice.tax designInvoice) 0%float = true
   /\ lineOffsets "Subtotal:" 350 (rendered LogoMissing designInvoice) = [325]
   /\ lineOffsets "Tax:" 350 (rendered LogoMissing designInvoice) = []
   /\ lineOffsets "Total:" 350 (rendered LogoMissing designInvoice) = [345])
  /\ (PrimFloat.ltb 0%float (Invoice.tax designTaxInvoice) = true
      /\ lineOffsets "Subtotal:" 350 (rendered LogoMissing designTaxInvoice)
         = [325]
      /\ lineOffsets "Tax:" 350 (rendered LogoMissing designTaxInvoice) = [345]
      /\ lineOffsets "Total:" 350 (rendered LogoMissing designTaxInvoice)
         = [365]).
Proof.
  split.
  - destruct (totals_follow_tax LogoMissing designInvoice) as (Hs & H0 & _).
    destruct (H0 eq_refl) as (Ht & Hl).
    exact (conj eq_refl (conj Hs (conj Ht Hl))).
  - destruct (totals_follow_tax LogoMissing designTaxInvoice) as (Hs & _ & H1).
    destruct (H1 eq_refl) as (Ht & Hl).
    exact (conj eq_refl (conj Hs (conj Ht Hl))).
Defined.

(** C3 on an invoice with an address and a phone: the phone line is at 225
    below the address, and at 210, where the address was, without it. *)
Lemma address_absent_shifts_up_witness :
  JS.truthy_string "1 Main St" = true
  /\ JS.truthy_field None = false
  /\ lineOffsets "555-0100" 50
       (rendered LogoMissing (Invoice.with_address (Some "1 Main St") fullInvoice))
     = [225]
  /\ lineOffsets "555-0100" 50
       (rendered LogoMissing (Invoice.with_address None fullInvoice))
     = [210]
  /\ lineOffsets "Total:" 350
       (rendered LogoMissing (Invoice.with_address (Some "1 Main St") fullInvoice))
     = [395]
  /\ lineOffsets "Total:" 350
       (rendered LogoMissing (Invoice.with_address None fullInvoice))
     = [380].
Proof.
  destruct (address_absent_shifts_up LogoMissing fullInvoice "1 Main St" None
              eq_refl eq_refl) as (Hp & Ha & _).
  repeat split; rewrite ?Hp, ?Ha; vm_compute; reflexivity.
Defined.

(** C4 on an invoice with two items: the second row is the second item, 20
    below the first. *)
Lemma rows_below_client_block_witness :
  Invoice.items fullInvoice <> []
  /\ nthRow 1 (itemRows (Invoice.items fullInvoice)
                        (rowY LogoMissing fullInvoice 0))
     = [ Text "Hosting" 50 325; Text "1" 300 325;
         Text "$20.00" 350 325; Text "$20.00" 450 325 ]
  /\ rowY LogoMissing fullInvoice 1 = rowY LogoMissing fullInvoice 0 + 20
  /\ tableTop LogoMissing fullInvoice = 275.
Proof.
  assert (Hne : Invoice.items fullInvoice <> []) by discriminate.
  destruct (rows_below_client_block LogoMissing fullInvoice Hne)
    as (_ & _ & _ & _ & Hrow & _ & Hstep).
  split; [exact Hne|]. split; [|split].
  - rewrite (Hrow 1%nat _ eq_refl). vm_compute. reflexivity.
  - apply Hstep. vm_compute. reflexivity.
  - reflexivity.
Defined.



(** C6 on a request without [clientInfo]. *)
Lemma invalid_request_rejected_witness :
  FailsValidation noClientBody
  /\ exists error, postInvoices noClientBody sampleWorld
                   = (Status400 error, sampleWorld).
Proof.
  assert (Hf : FailsValidation noClientBody)
    by (apply ClientInfoMissing; reflexivity).
  split; [exact Hf|]. exact (invalid_request_rejected noClientBody sampleWorld Hf).
Defined.

(** C7 on a world whose logo file cannot be decoded. *)
Lemma unreadable_logo_as_missing_witness :
  World.logo (World.with_logo (LogoUnreadable "Unknown image format.")
                              sampleWorld)
  = LogoUnreadable "Unknown image format."
  /\ fst (generateInvoicePDF designInvoice "invoices/out.pdf"
            (World.with_logo (LogoUnreadable "Unknown image format.")
                             sampleWorld))
     = Resolved "invoices/out.pdf"
  /\ World.files
       (snd (generateInvoicePDF designInvoice "invoices/out.pdf"
               (World.with_logo (LogoUnreadable "Unknown image format.")
                                sampleWorld)))
     = [("invoices/out.pdf", rendered LogoMissing designInvoice)].
Proof.
  split; [reflexivity|].
  destruct (unreadable_logo_as_missing "Unknown image format." designInvoice
              "invoices/out.pdf"
              (World.with_logo (LogoUnreadable "Unknown image format.")
                               sampleWorld) eq_refl)
    as (_ & _ & _ & _ & _ & Hw).
  exact (Hw eq_refl).
Defined.



(** * Further properties *)

(** ** The layout routine *)

Section MoreRendererFacts.

Context `{Host}.

Ltac same_calls :=
  repeat first
    [ reflexivity
    | apply (f_equal2 (@cons op))
    | apply (f_equal2 (@app op))
    | (f_equal; lia) ].

Lemma lowerPart_tableAndBelow (logo : LogoAsset) (i : Invoice.t) :
  lowerPart logo i
  = clientBlock (Invoice.clientInfo i) (clientY logo) ++ tableAndBelow logo i.
Proof.
  unfold lowerPart, belowClientHead, clientBlock, tableAndBelow.
  now rewrite <- !app_assoc.
Qed.

Lemma shift_tableAndBelow (d : Z) (logo : LogoAsset) (i j : Invoice.t) :
  Invoice.items j = Invoice.items i ->
  Invoice.subtotal j = Invoice.subtotal i ->
  Invoice.tax j = Invoice.tax i ->
  Invoice.total j = Invoice.total i ->
  tableTop logo j = tableTop logo i + d ->
  tableAndBelow logo j = map (shiftY d) (tableAndBelow logo i).
Proof.
  intros Hi Hs Hx Ht Htop. unfold tableAndBelow.
  rewrite !map_app, shift_tableHeader, shift_itemRows, shift_totalsBlock,
    shift_footerBlock.
  unfold footerY, totalY, taxY, subtotalY, ruleY, afterRowsY, rowY,
    totalsBlock, taxLine.
  rewrite Hi, Hs, Hx, Ht, Htop.
  destruct (JS.gt0 (Invoice.tax i)); same_calls.
Qed.

(** X1: take an invoice and give it a phone that the code draws (a non-empty
    string), or none (missing or empty).  Both documents start with the same
    calls, up to the address line; the first then draws the phone right
    below the last client line; the table header, the rows, the totals and
    the footer are drawn in the second document 15 units higher and
    otherwise unchanged. *)
Theorem phone_absent_shifts_up (logo : LogoAsset) (i : Invoice.t)
        (p : string) (p0 : option string) :
  JS.truthy_string p = true ->
  JS.truthy_field p0 = false ->
  let present := withPhone (Some p) i in
  let absent := withPhone p0 i in
  let before :=
    logoBlock logo ++ upperPart logo i
    ++ clientHead (Invoice.clientInfo i) (clientY logo)
    ++ addressLine (Invoice.clientInfo i) (clientY logo) in
  rendered logo present
  = before
    ++ Text p 50
         (clientY logo + 50
          + (if JS.truthy_field (ClientInfo.address (Invoice.clientInfo i))
             then 15 else 0))
    :: tableAndBelow logo present
  /\ rendered logo absent
     = before ++ map (shiftY (-15)) (tableAndBelow logo present).
Proof.
  intros Hp Hp0. cbv zeta. split.
  - rewrite rendered_parts, lowerPart_tableAndBelow.
    unfold clientBlock, phoneLine.
    cbn [withPhone Invoice.clientInfo ClientInfo.phone ClientInfo.address].
    rewrite Hp, <- !app_assoc. reflexivity.
  - rewrite rendered_parts, lowerPart_tableAndBelow.
    rewrite (shift_tableAndBelow (-15) logo (withPhone (Some p) i)
                                 (withPhone p0 i)); try reflexivity.
    + unfold clientBlock, phoneLine.
      cbn [withPhone Invoice.clientInfo ClientInfo.phone ClientInfo.address].
      replace (match p0 with
               | Some p1 => if JS.truthy_string p1 then _ else []
               | None => []
               end) with (@nil op)
        by (destruct p0 as [p1|]; [cbn in Hp0; rewrite Hp0|]; reflexivity).
      rewrite <- !app_assoc. reflexivity.
    + unfold tableTop, clientInfoHeight.
      cbn [withPhone Invoice.clientInfo ClientInfo.phone ClientInfo.address
           JS.truthy_field].
      rewrite Hp, Hp0. lia.
Qed.

(** X2: a due date adds one line to the title block, 60 below the title,
    and moves nothing: every other call of the document is the same with
    and without it. *)
Theorem due_date_adds_one_line (logo : LogoAsset) (i : Invoice.t) (d : Date) :
  let before :=
    logoBlock logo ++ upperPart logo (withDueDate None i) in
  rendered logo (withDueDate None i) = before ++ lowerPart logo i
  /\ rendered logo (withDueDate (Some d) i)
     = before
       ++ Text ("Due Date: " +s+ toLocaleDateString d) 400
               (invoiceTitleY logo + 60)
       :: lowerPart logo i.
Proof.
  cbv zeta. split.
  - rewrite rendered_parts, <- app_assoc. reflexivity.
  - rewrite rendered_parts. unfold upperPart, titleBlock, dueDateLine.
    cbn [withDueDate Invoice.dueDate Invoice.companyInfo
         Invoice.invoiceNumber Invoice.createdAt].
    rewrite app_nil_r, <- !app_assoc. reflexivity.
Qed.

(** X3: the header and title blocks stay clear of the client block: every
    line of theirs is at least 40 units above "Bill To:", and the logo
    image, 60 high at offset 50, ends above the company name. *)
Theorem upper_blocks_clear_of_client (logo : LogoAsset) (i : Invoice.t) :
  rendered logo i = logoBlock logo ++ upperPart logo i ++ lowerPart logo i
  /\ (forall s x y, In (Text s x y) (upperPart logo i) ->
                    y + 40 <= clientY logo)
  /\ origin (lowerPart logo i) = Some (clientY logo)
  /\ (forall src x y w h, In (Image src x y w h) (logoBlock logo) ->
                          y + h < headerY logo).
Proof.
  split; [apply rendered_parts|]. split; [|split].
  - unfold upperPart, headerBlock, titleBlock, dueDateLine, clientY,
      invoiceTitleY, headerY, logoHeight.
    intros s x y Hin.
    destruct logo, (Invoice.dueDate i); cbn [app In] in Hin;
      repeat destruct Hin as [Hin|Hin];
      try discriminate; try contradiction;
      injection Hin as _ _ <-; lia.
  - reflexivity.
  - intros src x y w h Hin. destruct logo; cbn [logoBlock In] in Hin;
      try contradiction.
    destruct Hin as [Hin|[]]. injection Hin as _ _ <- _ <-.
    unfold headerY, logoHeight. lia.
Qed.

(** *** One more item *)

Lemma itemRows_app (items : list Item.t) (item : Item.t) (y : Z) :
  itemRows (items ++ [item]) y
  = itemRows items y
    ++ rowOps item (y + 20 * Z.of_nat (List.length items)).
Proof.
  unfold itemRows.
  revert y; induction items as [|it rest IH]; intro y.
  - cbn [app rowBlocks List.concat List.length Z.of_nat].
    rewrite app_nil_r. unfold rowOps. same_calls.
  - cbn [app rowBlocks List.concat List.length]. rewrite IH, <- app_assoc.
    unfold rowOps. same_calls.
Qed.

(** X4: one more item at the end of the list adds one row of four texts, 20
    below the last row (30 below the header when it is the first), and
    moves the totals and the footer down by 20; the calls before it are
    unchanged and nothing breaks the page, however many items there are. *)
Theorem one_more_item (logo : LogoAsset) (i : Invoice.t) (item : Item.t) :
  let longer := withItems (Invoice.items i ++ [item]) i in
  let before :=
    logoBlock logo ++ upperPart logo i
    ++ clientBlock (Invoice.clientInfo i) (clientY logo)
    ++ tableHeader (tableTop logo i)
    ++ itemRows (Invoice.items i) (rowY logo i 0) in
  let after :=
    totalsBlock i (ruleY logo i) ++ footerBlock (footerY logo i) in
  rendered logo i = before ++ after
  /\ rendered logo longer
     = before
       ++ rowOps item
            (tableTop logo i + 30
             + 20 * Z.of_nat (List.length (Invoice.items i)))
       ++ map (shiftY 20) after.
Proof.
  cbv zeta. split.
  - rewrite rendered_parts, lowerPart_tableAndBelow. unfold tableAndBelow.
    rewrite <- !app_assoc. reflexivity.
  - rewrite rendered_parts, lowerPart_tableAndBelow. unfold tableAndBelow.
    rewrite map_app, shift_totalsBlock, shift_footerBlock.
    cbn [withItems Invoice.items Invoice.clientInfo].
    unfold rowY at 1. cbn [withItems Invoice.items Invoice.clientInfo].
    rewrite itemRows_app, <- !app_assoc.
    unfold footerY, totalY, taxY, subtotalY, ruleY, afterRowsY, rowY, tableTop,
      totalsBlock, taxLine, upperPart, titleBlock.
    cbn [withItems Invoice.items Invoice.clientInfo Invoice.companyInfo
         Invoice.tax Invoice.subtotal Invoice.total Invoice.dueDate
         Invoice.invoiceNumber Invoice.createdAt].
    rewrite length_app. cbn [List.length].
    destruct (JS.gt0 (Invoice.tax i)); same_calls.
Qed.

(** *** Font sizes *)

Lemma fontSizes_app (x current : Z) (a b : list op) :
  fontSizes x current (a ++ b)
  = fontSizes x current a ++ fontSizes x (sizeAfter current a) b.
Proof.
  revert current; induction a as [|o a IH]; intro current; [reflexivity|].
  destruct o; cbn [app fontSizes sizeAfter]; try apply IH.
  destruct (Z.eqb x0 x); cbn [app]; now rewrite IH.
Qed.

Lemma sizeAfter_itemRows (current : Z) (items : list Item.t) (y : Z) :
  sizeAfter current (itemRows items y) = current.
Proof.
  unfold itemRows.
  revert y; induction items as [|item rest IH]; intro y; [reflexivity|].
  cbn [rowBlocks List.concat rowOps app sizeAfter]. apply IH.
Qed.

Lemma fontSizes_itemRows (x current : Z) (items : list Item.t) (y : Z) :
  In x [50; 300; 350; 450] ->
  fontSizes x current (itemRows items y)
  = repeat current (List.length items).
Proof.
  intro Hx. unfold itemRows.
  revert y; induction items as [|item rest IH]; intro y; [reflexivity|].
  cbn [rowBlocks List.concat rowOps app List.length repeat].
  cbn [In] in Hx.
  destruct Hx as [<-|[<-|[<-|[<-|[]]]]]; cbn; now rewrite IH.
Qed.

Lemma fontSizes_itemRows_title (current : Z) (items : list Item.t) (y : Z) :
  fontSizes 400 current (itemRows items y) = [].
Proof.
  unfold itemRows.
  revert y; induction items as [|item rest IH]; intro y; [reflexivity|].
  cbn [rowBlocks List.concat rowOps app]. cbn. apply IH.
Qed.

(** X5: every text is drawn at a size the routine set itself, whatever the
    document's size was before: in the Qty column everything is at 12; in
    the Rate and Amount columns the header, the rows, Subtotal and Tax are
    at 12 and Total, label and value, at 14; the title is at 24 with its
    lines at 12; on the left the company name is at 20, "Bill To:" at 16,
    the footer at 10 and all else at 12. *)
Theorem text_sizes (current : Z) (logo : LogoAsset) (i : Invoice.t) :
  let ops := rendered logo i in
  let rows := repeat 12 (List.length (Invoice.items i)) in
  let taxSize := if JS.gt0 (Invoice.tax i) then [12] else [] in
  fontSizes 300 current ops = 12 :: rows
  /\ fontSizes 350 current ops = 12 :: rows ++ [12] ++ taxSize ++ [14]
  /\ fontSizes 450 current ops = 12 :: rows ++ [12] ++ taxSize ++ [14]
  /\ fontSizes 400 current ops
     = [24; 12; 12]
       ++ (match Invoice.dueDate i with Some _ => [12] | None => [] end)
  /\ fontSizes 50 current ops
     = [20; 12; 12; 12; 16; 12; 12]
       ++ (if JS.truthy_field (ClientInfo.address (Invoice.clientInfo i))
           then [12] else [])
       ++ (if JS.truthy_field (ClientInfo.phone (Invoice.clientInfo i))
           then [12] else [])
       ++ 12 :: rows ++ [10].
Proof.
  cbv zeta. rewrite rendered_parts.
  unfold upperPart, lowerPart, belowClientHead, totalsBlock, taxLine,
    footerBlock, tableHeader, phoneLine, addressLine, clientHead, titleBlock,
    dueDateLine, headerBlock, logoBlock.
  destruct logo, (Invoice.dueDate i),
    (ClientInfo.address (Invoice.clientInfo i)) as [[|a0 a]|],
    (ClientInfo.phone (Invoice.clientInfo i)) as [[|p0 p]|],
    (JS.gt0 (Invoice.tax i));
    cbn [JS.truthy_field JS.truthy_string app];
    repeat split;
    cbn [fontSizes Z.eqb Pos.eqb];
    rewrite ?fontSizes_app, ?sizeAfter_itemRows, ?fontSizes_itemRows_title,
      ?fontSizes_itemRows by (cbn [In]; tauto);
    cbn [fontSizes Z.eqb Pos.eqb app]; rewrite ?app_nil_r;
    reflexivity.
Qed.

(** *** The first version *)

Lemma renderedFixed_parts (i : Invoice.t) :
  renderedFixed i
  = upperPart LogoMissing i
    ++ clientHead (Invoice.clientInfo i) 160
    ++ addressLine (Invoice.clientInfo i) 160
    ++ phoneLineFixed (Invoice.clientInfo i)
    ++ tableAndBelowFixed i.
Proof.
  destruct i as [num [cn ce ca cp] co its sub tx tot st due cr pp].
  unfold renderedFixed, drawInvoiceFixed, Draw.exec, upperPart,
    tableAndBelowFixed, phoneLineFixed.
  unfold totalsBlock, taxLine, addressLine, clientHead, titleBlock,
    dueDateLine, headerBlock, invoiceTitleY, headerY, logoHeight.
  cbn [Invoice.companyInfo Invoice.clientInfo Invoice.items Invoice.tax
       Invoice.dueDate Invoice.subtotal Invoice.total Invoice.createdAt
       Invoice.invoiceNumber ClientInfo.address ClientInfo.phone
       ClientInfo.name ClientInfo.email].
  destruct due as [d|];
    destruct ca as [[|a0 a]|]; destruct cp as [[|p0 p]|];
    destruct (JS.gt0 tx);
    cbn -[Z.add Z.mul Z.of_nat forEachItem itemRows String.append];
    rewrite forEachItem_rows;
    cbn -[Z.add Z.mul Z.of_nat forEachItem itemRows String.append];
    same_calls.
Qed.

(** X6: in the first version the address line reserves its slot whether it
    is drawn or not: without the address the document is the same, call for
    call and offset for offset, minus the one address line at 210; the phone
    stays at 225 and the table at 280. *)
Theorem fixed_layout_keeps_gap (i : Invoice.t) (a : string)
        (a0 : option string) :
  JS.truthy_string a = true ->
  JS.truthy_field a0 = false ->
  let before :=
    upperPart LogoMissing i ++ clientHead (Invoice.clientInfo i) 160 in
  let after :=
    phoneLineFixed (Invoice.clientInfo i) ++ tableAndBelowFixed i in
  renderedFixed (Invoice.with_address (Some a) i)
  = before ++ Text a 50 210 :: after
  /\ renderedFixed (Invoice.with_address a0 i) = before ++ after
  /\ origin (tableAndBelowFixed i) = Some 280.
Proof.
  intros Ha Ha0. cbv zeta. repeat apply conj.
  - rewrite renderedFixed_parts. unfold addressLine.
    cbn [Invoice.with_address Invoice.clientInfo ClientInfo.address].
    rewrite Ha, <- !app_assoc. reflexivity.
  - rewrite renderedFixed_parts. unfold addressLine.
    cbn [Invoice.with_address Invoice.clientInfo ClientInfo.address].
    replace (match a0 with
             | Some a1 => if JS.truthy_string a1 then _ else []
             | None => []
             end) with (@nil op)
      by (destruct a0 as [a1|]; [cbn in Ha0; rewrite Ha0|]; reflexivity).
    rewrite <- !app_assoc. reflexivity.
  - reflexivity.
Qed.

(** X7: without a logo the current version draws what the first version
    draws down to the address line; from the table header on it draws the
    first version's calls moved up by 35, less 15 for each of the address
    and phone lines it draws, so by at least 5; and its phone line is the
    first version's when the address is drawn, and 15 higher otherwise. *)
Theorem cursor_layout_against_fixed (i : Invoice.t) :
  let c := Invoice.clientInfo i in
  let common :=
    upperPart LogoMissing i ++ clientHead c 160 ++ addressLine c 160 in
  let lines : Z :=
    (if JS.truthy_field (ClientInfo.address c) then 1 else 0)
    + (if JS.truthy_field (ClientInfo.phone c) then 1 else 0) in
  renderedFixed i = common ++ phoneLineFixed c ++ tableAndBelowFixed i
  /\ rendered LogoMissing i
     = common
       ++ map (shiftY (if JS.truthy_field (ClientInfo.address c)
                       then 0 else -15))
              (phoneLineFixed c)
       ++ map (shiftY (15 * lines - 35)) (tableAndBelowFixed i)
  /\ 15 * lines - 35 <= -5.
Proof.
  cbv zeta. repeat apply conj.
  - rewrite renderedFixed_parts, <- !app_assoc. reflexivity.
  - rewrite rendered_parts, lowerPart_tableAndBelow.
    unfold clientBlock, tableAndBelow, tableAndBelowFixed, phoneLineFixed,
      phoneLine.
    rewrite !map_app, shift_tableHeader, shift_itemRows, shift_totalsBlock,
      shift_footerBlock.
    unfold footerY, totalY, taxY, subtotalY, ruleY, afterRowsY, rowY, tableTop,
      clientInfoHeight, clientY, headerY, logoHeight, logoBlock.
    cbn [app].
    destruct (ClientInfo.address (Invoice.clientInfo i)) as [[|a0 a]|],
      (ClientInfo.phone (Invoice.clientInfo i)) as [[|p0 p]|],
      (JS.gt0 (Invoice.tax i));
      cbn [JS.truthy_field JS.truthy_string map shiftY];
      rewrite <- ?app_assoc; same_calls.
  - destruct (JS.truthy_field _), (JS.truthy_field _); lia.
Qed.

End MoreRendererFacts.

(** ** The files and the store *)

Lemma hasId_number (id : string) (j : Invoice.t) :
  hasId id j = true <-> Invoice.invoiceNumber j = id.
Proof. unfold hasId. apply String.eqb_eq. Qed.

Lemma hasId_other (id id' : string) (j : Invoice.t) :
  id' <> id -> hasId id j = true -> hasId id' j = false.
Proof.
  intros Hne Hj. apply hasId_number in Hj. unfold hasId.
  apply String.eqb_neq. congruence.
Qed.

Lemma find_hasId_none (id : string) (l : list Invoice.t) :
  ~ In id (map Invoice.invoiceNumber l) -> find (hasId id) l = None.
Proof.
  intro Hn. destruct (find (hasId id) l) as [k|] eqn:E; [|reflexivity].
  apply find_some in E as [Hin Hk]. apply hasId_number in Hk.
  exfalso. apply Hn. rewrite <- Hk. now apply in_map.
Qed.

Lemma find_hasId_in (id : string) (l : list Invoice.t) :
  find (hasId id) l = None -> ~ In id (map Invoice.invoiceNumber l).
Proof.
  intros Hf Hin. apply in_map_iff in Hin as (k & Hk & Hin).
  apply (find_none _ _ Hf) in Hin. apply hasId_number in Hk. congruence.
Qed.



Lemma map_number_updateFirst (id : string) (f : Invoice.t -> Invoice.t)
      (l : list Invoice.t) :
  (forall k, Invoice.invoiceNumber (f k) = Invoice.invoiceNumber k) ->
  map Invoice.invoiceNumber (updateFirst id f l)
  = map Invoice.invoiceNumber l.
Proof.
  intro Hf. induction l as [|j rest IH]; [reflexivity|].
  cbn [updateFirst]. destruct (hasId id j); cbn [map]; congruence.
Qed.

Lemma find_updateFirst_same (id : string) (f : Invoice.t -> Invoice.t)
      (l : list Invoice.t) (j : Invoice.t) :
  (forall k, Invoice.invoiceNumber (f k) = Invoice.invoiceNumber k) ->
  find (hasId id) l = Some j ->
  find (hasId id) (updateFirst id f l) = Some (f j).
Proof.
  intro Hf. induction l as [|k rest IH]; [discriminate|].
  cbn [find updateFirst]. destruct (hasId id k) eqn:E.
  - intros [= ->]. cbn [find]. unfold hasId in *. now rewrite Hf, E.
  - intro Hj. cbn [find]. rewrite E. now apply IH.
Qed.

Lemma find_updateFirst_other (id id' : string) (f : Invoice.t -> Invoice.t)
      (l : list Invoice.t) :
  (forall k, Invoice.invoiceNumber (f k) = Invoice.invoiceNumber k) ->
  id' <> id ->
  find (hasId id') (updateFirst id f l) = find (hasId id') l.
Proof.
  intros Hf Hne. induction l as [|k rest IH]; [reflexivity|].
  cbn [find updateFirst]. destruct (hasId id k) eqn:E.
  - cbn [find]. rewrite (hasId_other id id' k Hne E).
    replace (hasId id' (f k)) with false; [reflexivity|].
    unfold hasId. rewrite Hf. symmetry. exact (hasId_other id id' k Hne E).
  - cbn [find]. now rewrite IH.
Qed.

Lemma NoDup_removeFirst (id : string) (l : list Invoice.t) :
  NoDup (map Invoice.invoiceNumber l) ->
  NoDup (map Invoice.invoiceNumber (removeFirst id l)).
Proof.
  induction l as [|j rest IH]; intro Hu; [exact Hu|].
  cbn [map] in Hu. apply NoDup_cons_iff in Hu as [Hj Hu].
  cbn [removeFirst]. destruct (hasId id j); [exact Hu|].
  cbn [map]. apply NoDup_cons; [|now apply IH].
  intro Hin. apply Hj. apply in_map_iff in Hin as (k & Hk & Hin).
  apply in_map_iff. exists k. split; [exact Hk|].
  clear - Hin. induction rest as [|r rest IH]; [contradiction|].
  cbn [removeFirst] in Hin. destruct (hasId id r).
  - now right.
  - destruct Hin as [<-|Hin]; [now left|right; now apply IH].
Qed.

Lemma map_number_replace (i : Invoice.t) (l : list Invoice.t) :
  map Invoice.invoiceNumber
      (map (fun j => if String.eqb (Invoice.invoiceNumber j)
                                   (Invoice.invoiceNumber i)
                     then i else j) l)
  = map Invoice.invoiceNumber l.
Proof.
  rewrite map_map. apply map_ext. intro j.
  destruct (String.eqb _ _) eqn:E; [|reflexivity].
  apply String.eqb_eq in E. congruence.
Qed.

Lemma readFile_exists (p : string) (w : World.t) :
  existsSync p w = true <-> exists content, readFile p w = Some content.
Proof.
  unfold existsSync, readFile. split.
  - intro He. apply existsb_exists in He as (f & Hin & Hf).
    destruct (find (atPath p) (World.files w)) as [g|] eqn:E.
    + now exists (snd g).
    + apply (find_none _ _ E) in Hin. congruence.
  - intros (content & Hr).
    destruct (find (atPath p) (World.files w)) as [g|] eqn:E; [|discriminate].
    apply find_some in E as [Hin Hg]. apply existsb_exists. now exists g.
Qed.




(** ** The create route, continued *)

Section MoreCreateFacts.

Context `{Host} `{RecordStore}.

Lemma rendered_with_pdfPath (logo : LogoAsset) (p : string) (i : Invoice.t) :
  rendered logo (Invoice.with_pdfPath p i) = rendered logo i.
Proof. rewrite !rendered_parts. reflexivity. Qed.

Lemma readFile_write (p : string) (content : list op) (w : World.t) :
  readFile p (World.write p content w) = Some content.
Proof.
  unfold readFile, World.write, atPath. cbn [World.files find fst].
  now rewrite String.eqb_refl.
Qed.

(** What a settled render leaves behind. *)
Lemma generateInvoicePDF_resolved (i : Invoice.t) (p r : string)
      (w w' : World.t) :
  generateInvoicePDF i p w = (Resolved r, w') ->
  World.writable w p = true
  /\ w' = World.write p (rendered (World.logo w) i)
                     (World.log (logoWarnings (World.logo w)) w).
Proof.
  unfold generateInvoicePDF. rewrite drawInvoice_out.
  cbn [Draw.doc Draw.warnings World.log World.writable].
  rewrite <- rendered_parts.
  destruct (World.writable w p); [|discriminate].
  intros [= _ <-]. split; reflexivity.
Qed.

Lemma generateInvoicePDF_rejected (i : Invoice.t) (p : string)
      (w w' : World.t) :
  generateInvoicePDF i p w = (Rejected, w') ->
  World.writable w p = false
  /\ w' = World.log (logoWarnings (World.logo w)) w.
Proof.
  unfold generateInvoicePDF. rewrite drawInvoice_out.
  cbn [Draw.doc Draw.warnings World.log World.writable].
  destruct (World.writable w p); [discriminate|].
  intros [= <-]. split; reflexivity.
Qed.

Lemma generateInvoicePDF_writable (i : Invoice.t) (p : string) (w : World.t) :
  World.writable w p = true ->
  generateInvoicePDF i p w
  = (Resolved p,
     World.write p (rendered (World.logo w) i)
                 (World.log (logoWarnings (World.logo w)) w)).
Proof.
  intro Hw. unfold generateInvoicePDF. rewrite drawInvoice_out.
  cbn [Draw.doc Draw.warnings World.log World.writable].
  rewrite <- rendered_parts, Hw. reflexivity.
Qed.

(** A create answered with status 201, in full. *)
Lemma postInvoices_created (body : Body.t) (w w' : World.t)
      (inv : Invoice.t) :
  postInvoices body w = (Status201 inv, w') ->
  exists invoice,
    newInvoice body (World.now w) = Some invoice
    /\ inv = Invoice.with_pdfPath (pdfPathOf invoice) invoice
    /\ findById (Invoice.invoiceNumber invoice) w = None
    /\ World.writable w (pdfPathOf invoice) = true
    /\ World.files w'
       = (pdfPathOf invoice, rendered (World.logo w) invoice) :: World.files w
    /\ World.store w' = inv :: World.store w
    /\ World.logo w' = World.logo w
    /\ World.now w' = World.now w.
Proof.
  unfold postInvoices.
  destruct (clientInfoRejected _); [discriminate|].
  destruct (itemsRejected _); [discriminate|].
  destruct (newInvoice body (World.now w)) as [invoice|]; [|discriminate].
  intro Hr. exists invoice. split; [reflexivity|]. revert Hr.
  unfold saveNew.
  destruct (accepts invoice) eqn:Ha; [|discriminate].
  destruct (existsb _ (World.store w)) eqn:He; [discriminate|].
  cbn [andb negb].
  fold (pdfPathOf invoice).
  destruct (generateInvoicePDF invoice (pdfPathOf invoice)
                               (World.insert invoice w))
    as [[r|] w2] eqn:Hg; [|discriminate].
  apply generateInvoicePDF_resolved in Hg as [Hw ->].
  unfold saveAgain.
  destruct (accepts (Invoice.with_pdfPath _ invoice)); [|discriminate].
  intros [= <- <-].
  assert (Hnone : findById (Invoice.invoiceNumber invoice) w = None).
  { unfold findById. apply find_hasId_none. intro Hin.
    apply in_map_iff in Hin as (k & Hk & Hin).
    assert (Hx : existsb
                   (fun j => String.eqb (Invoice.invoiceNumber j)
                                        (Invoice.invoiceNumber invoice))
                   (World.store w) = true).
    { apply existsb_exists. exists k. split; [exact Hin|].
      now apply String.eqb_eq. }
    congruence. }
  repeat apply conj; try reflexivity; try assumption.
  cbn [World.replace World.store World.write World.log World.insert map
       Invoice.with_pdfPath Invoice.invoiceNumber].
  rewrite String.eqb_refl. f_equal.
  rewrite <- (map_id (World.store w)) at 2. apply map_ext_in.
  intros j Hj. destruct (String.eqb _ _) eqn:E; [|reflexivity].
  exfalso. apply String.eqb_eq in E.
  apply (find_hasId_in _ _ Hnone). rewrite <- E. now apply in_map.
Qed.

(** X8: a create answered with status 201 leaves the rendered document on
    disk and the record pointing at it: the stored invoice is found under
    its number, its [pdfPath] is [invoices/invoice-<number>.pdf], and that
    file holds the document the routine draws for it with the logo as it
    was. *)
Theorem created_invoice_has_its_artifact (body : Body.t) (w : World.t)
        (inv : Invoice.t) :
  fst (postInvoices body w) = Status201 inv ->
  let w' := snd (postInvoices body w) in
  findById (Invoice.invoiceNumber inv) w' = Some inv
  /\ Invoice.pdfPath inv = Some (pdfPathOf inv)
  /\ pdfPathOf inv
     = "invoices/invoice-" +s+ Invoice.invoiceNumber inv +s+ ".pdf"
  /\ readFile (pdfPathOf inv) w' = Some (rendered (World.logo w) inv).
Proof.
  intro Hr. cbv zeta.
  destruct (postInvoices body w) as [r w'] eqn:E. cbn [fst snd] in *. subst r.
  apply postInvoices_created in E as (invoice & _ & -> & _ & _ & Hf & Hs & _).
  repeat apply conj.
  - unfold findById. rewrite Hs. cbn [find]. unfold hasId.
    now rewrite String.eqb_refl.
  - reflexivity.
  - reflexivity.
  - unfold readFile, atPath. rewrite Hf. cbn [find fst pdfPathOf
      Invoice.with_pdfPath Invoice.invoiceNumber].
    fold (pdfPathOf invoice).
    rewrite String.eqb_refl. cbn [option_map snd].
    now rewrite rendered_with_pdfPath.
Qed.

(** X9: the route does not undo the first save when the render fails: if the
    store takes the new invoice and the sink cannot be written, the answer
    is status 500, yet the invoice is in the store, without a [pdfPath], and
    no file is written. *)
Theorem failed_render_leaves_record (body : Body.t) (w : World.t)
        (invoice : Invoice.t) :
  clientInfoRejected (Body.clientInfo body) = false ->
  itemsRejected (Body.items body) = false ->
  newInvoice body (World.now w) = Some invoice ->
  accepts invoice = true ->
  findById (Invoice.invoiceNumber invoice) w = None ->
  World.writable w (pdfPathOf invoice) = false ->
  let r := postInvoices body w in
  fst r = Status500 "Failed to create invoice"
  /\ World.store (snd r) = invoice :: World.store w
  /\ Invoice.pdfPath invoice = None
  /\ World.files (snd r) = World.files w.
Proof.
  intros Hc Hi Hnew Ha Hn Hw. cbv zeta.
  unfold postInvoices. rewrite Hc, Hi, Hnew.
  unfold saveNew. rewrite Ha.
  replace (existsb _ (World.store w)) with false.
  - cbn [andb negb]. fold (pdfPathOf invoice).
    unfold generateInvoicePDF.
    cbn [World.log World.writable World.insert]. rewrite Hw.
    cbn [failed fst snd World.log World.store World.files].
    repeat apply conj; try reflexivity.
    now destruct (newInvoice_some _ _ _ Hnew) as (_ & _ & _ & Hp & _).
  - symmetry. apply not_true_is_false. intro He.
    apply existsb_exists in He as (k & Hin & Hk). apply String.eqb_eq in Hk.
    apply (find_hasId_in _ _ Hn). rewrite <- Hk. now apply in_map.
Qed.

(** *** Validation, both ways *)



(** *** The stored tax *)

Lemma or_zero_clean (v : JS.value) (t : JS.number) :
  NumberOrMissing v ->
  castToNumber (JS.or_zero v) = Some t ->
  JS.isNaN t = false /\ (t = 0%float \/ JS.truthy_number t = true).
Proof.
  unfold JS.or_zero.
  intros [| |x]; cbn [JS.truthy castToNumber];
    [| |destruct (JS.truthy_number x) eqn:E; cbn [castToNumber]];
    intros [= <-]; try (split; [reflexivity|now left]).
  split; [|now right].
  unfold JS.truthy_number in E. apply negb_true_iff in E.
  now apply orb_false_iff in E as [_ E].
Qed.

(** X11: whatever number a request carries as its tax, or none, the tax the
    route stores is never NaN, and when it is zero it is the positive zero:
    [tax || 0] turns a missing, NaN or zero tax (of either sign) into 0. *)
Theorem stored_tax_is_clean (body : Body.t) (w : World.t) (inv : Invoice.t) :
  NumberOrMissing (Body.tax body) ->
  In inv (World.store (snd (postInvoices body w))) ->
  In inv (World.store w)
  \/ (JS.isNaN (Invoice.tax inv) = false
      /\ (Invoice.tax inv = 0%float
          \/ JS.truthy_number (Invoice.tax inv) = true)).
Proof.
  intros Hn Hin.
  destruct (outcome_store _ _ _ _ (postInvoices_outcome body w) Hin)
    as [Hold|(invoice & Hnew & [->|(p & ->)])]; [now left| |]; right;
    cbn [Invoice.with_pdfPath Invoice.tax];
    destruct (newInvoice_some _ _ _ Hnew) as (_ & _ & _ & _ & Htax & _);
    exact (or_zero_clean _ _ Hn Htax).
Qed.

End MoreCreateFacts.

(** ** The routes on one invoice *)

Section MoreRouteFacts.

Context `{Host} `{RecordStore} `{Queries}.

Lemma postInvoices_store (body : Body.t) (w : World.t) :
  World.store (snd (postInvoices body w)) = World.store w
  \/ exists invoice inv,
       newInvoice body (World.now w) = Some invoice
       /\ findById (Invoice.invoiceNumber invoice) w = None
       /\ Invoice.invoiceNumber inv = Invoice.invoiceNumber invoice
       /\ World.store (snd (postInvoices body w)) = inv :: World.store w.
Proof.
  destruct (postInvoices body w) as [r w'] eqn:E. cbn [snd].
  destruct r as [e|e|inv].
  - left. pose proof (postInvoices_outcome body w) as Ho. rewrite E in Ho.
    inversion Ho; reflexivity.
  - revert E. unfold postInvoices.
    destruct (clientInfoRejected _); [discriminate|].
    destruct (itemsRejected _); [discriminate|].
    destruct (newInvoice body (World.now w)) as [invoice|];
      [|intros [= _ <-]; now left].
    unfold saveNew.
    destruct (accepts invoice); [|intros [= _ <-]; now left].
    destruct (existsb _ (World.store w)) eqn:He; [intros [= _ <-]; now left|].
    cbn [andb negb].
    assert (Hnone : findById (Invoice.invoiceNumber invoice) w = None).
    { unfold findById. apply find_hasId_none. intro Hin.
      apply in_map_iff in Hin as (k & Hk & Hin).
      assert (Hx : existsb
                     (fun j => String.eqb (Invoice.invoiceNumber j)
                                          (Invoice.invoiceNumber invoice))
                     (World.store w) = true).
      { apply existsb_exists. exists k. split; [exact Hin|].
        now apply String.eqb_eq. }
      congruence. }
    destruct (generateInvoicePDF invoice _ (World.insert invoice w))
      as [[p|] w2] eqn:Hg.
    + apply generateInvoicePDF_resolved in Hg as [_ ->].
      unfold saveAgain.
      destruct (accepts (Invoice.with_pdfPath _ invoice));
        [discriminate|].
      intros [= _ <-]. right. exists invoice, invoice. auto.
    + apply generateInvoicePDF_rejected in Hg as [_ ->].
      intros [= _ <-]. right. exists invoice, invoice. auto.
  - apply postInvoices_created in E
      as (invoice & Hnew & -> & Hn & _ & _ & Hs & _).
    right.
    exists invoice, (Invoice.with_pdfPath (pdfPathOf invoice) invoice). auto.
Qed.

Lemma find_map_same_number (id : string) (f : Invoice.t -> Invoice.t)
      (l : list Invoice.t) :
  (forall k, Invoice.invoiceNumber (f k) = Invoice.invoiceNumber k) ->
  find (hasId id) (map f l) = option_map f (find (hasId id) l).
Proof.
  intro Hf. induction l as [|j rest IH]; [reflexivity|].
  cbn [map find]. unfold hasId at 1 3. rewrite Hf.
  destruct (String.eqb _ id); [reflexivity|exact IH].
Qed.

Lemma replace_same_number (i k : Invoice.t) :
  Invoice.invoiceNumber
    (if String.eqb (Invoice.invoiceNumber k) (Invoice.invoiceNumber i)
     then i else k)
  = Invoice.invoiceNumber k.
Proof.
  destruct (String.eqb _ _) eqn:E; [|reflexivity].
  apply String.eqb_eq in E. congruence.
Qed.

(** What the download route leaves in the store. *)
Lemma downloadInvoice_numbers (id : string) (w : World.t) :
  map Invoice.invoiceNumber (World.store (snd (downloadInvoice id w)))
  = map Invoice.invoiceNumber (World.store w).
Proof.
  unfold downloadInvoice, caught, streamPdf.
  destruct (queryThrows id); [reflexivity|].
  destruct (findById id w) as [inv|]; [|reflexivity].
  destruct (artifactMissing inv w).
  - destruct (generateInvoicePDF inv (pdfPathOf inv) w) as [[p|] w2] eqn:Hg.
    + apply generateInvoicePDF_resolved in Hg as [_ ->].
      unfold saveAgain.
      destruct (accepts _); [|reflexivity].
      cbn [Invoice.with_pdfPath Invoice.pdfPath].
      destruct (readFile _ _); cbn [snd World.replace World.store World.write
                                   World.log];
        apply map_number_replace.
    + apply generateInvoicePDF_rejected in Hg as [_ ->]. reflexivity.
  - destruct (Invoice.pdfPath inv) as [p|]; [|reflexivity].
    destruct (readFile p w); reflexivity.
Qed.

(** X12: every route keeps the invoice numbers in the store pairwise
    distinct. *)
Theorem routes_keep_numbers_unique (w : World.t) :
  UniqueNumbers w ->
  (forall body, UniqueNumbers (snd (postInvoices body w)))
  /\ (forall id, UniqueNumbers (snd (getInvoice id w)))
  /\ (forall id, UniqueNumbers (snd (downloadInvoice id w)))
  /\ (forall id status, UniqueNumbers (snd (patchStatus id status w)))
  /\ (forall id, UniqueNumbers (snd (deleteInvoice id w))).
Proof.
  unfold UniqueNumbers. intro Hu. repeat apply conj.
  - intro body.
    destruct (postInvoices_store body w)
      as [->|(invoice & inv & _ & Hn & Hi & ->)]; [exact Hu|].
    cbn [map]. apply NoDup_cons; [|exact Hu].
    rewrite Hi. now apply find_hasId_in.
  - intro id. unfold getInvoice, caught.
    destruct (queryThrows id); [exact Hu|].
    destruct (findById id w); exact Hu.
  - intro id. now rewrite downloadInvoice_numbers.
  - intros id status. unfold patchStatus, caught, findByIdAndUpdate.
    destruct status as [s|]; [|exact Hu].
    destruct (statusAllowed s); [|exact Hu]. cbn [negb].
    destruct (queryThrows id); [exact Hu|].
    destruct (findById id w); cbn [option_map snd]; [|exact Hu].
    cbn [withStore World.store]. now rewrite map_number_updateFirst.
  - intro id. unfold deleteInvoice, caught, findByIdAndDelete.
    destruct (queryThrows id); [exact Hu|].
    destruct (findById id w) as [inv|]; [|exact Hu].
    cbn [snd withStore World.store].
    destruct (Invoice.pdfPath inv) as [p|];
      [destruct (JS.truthy_string p && existsSync p w)|];
      now apply NoDup_removeFirst.
Qed.

Lemma downloadInvoice_present (id p : string) (w : World.t)
      (inv : Invoice.t) (content : list op) :
  queryThrows id = false ->
  findById id w = Some inv ->
  Invoice.pdfPath inv = Some p ->
  JS.truthy_string p = true ->
  readFile p w = Some content ->
  downloadInvoice id w = (pdfReply inv content, w).
Proof.
  intros Hq Hf Hp Ht Hr. unfold downloadInvoice, artifactMissing, streamPdf.
  rewrite Hq, Hf, Hp, Ht.
  assert (He : existsSync p w = true)
    by (apply readFile_exists; now exists content).
  rewrite He, Hr. reflexivity.
Qed.

(** X13: when the invoice's artifact is on disk the download route serves
    that file as it is, as a PDF attachment named after the invoice number,
    and changes nothing: it does not draw the invoice again. *)
Theorem download_serves_existing_file (id p : string) (w : World.t)
        (inv : Invoice.t) (content : list op) :
  queryThrows id = false ->
  findById id w = Some inv ->
  Invoice.pdfPath inv = Some p ->
  JS.truthy_string p = true ->
  readFile p w = Some content ->
  downloadInvoice id w
  = (ReplyPdf "application/pdf"
       ("attachment; filename=" +s+ dquote +s+ "invoice-"
        +s+ Invoice.invoiceNumber inv +s+ ".pdf" +s+ dquote)
       content,
     w).
Proof. apply downloadInvoice_present. Qed.

Lemma pdfPathOf_truthy (inv : Invoice.t) :
  JS.truthy_string (pdfPathOf inv) = true.
Proof. reflexivity. Qed.

Lemma downloadInvoice_missing (id : string) (w : World.t) (inv : Invoice.t) :
  queryThrows id = false ->
  findById id w = Some inv ->
  artifactMissing inv w = true ->
  World.writable w (pdfPathOf inv) = true ->
  accepts (Invoice.with_pdfPath (pdfPathOf inv) inv) = true ->
  downloadInvoice id w
  = (pdfReply inv (rendered (World.logo w) inv),
     World.replace (Invoice.with_pdfPath (pdfPathOf inv) inv)
       (World.write (pdfPathOf inv) (rendered (World.logo w) inv)
          (World.log (logoWarnings (World.logo w)) w))).
Proof.
  intros Hq Hf Hm Hw Ha. unfold downloadInvoice.
  rewrite Hq, Hf, Hm, (generateInvoicePDF_writable inv _ w Hw).
  unfold saveAgain. rewrite Ha. unfold streamPdf.
  cbn [Invoice.with_pdfPath Invoice.pdfPath Invoice.invoiceNumber].
  unfold readFile, atPath.
  cbn [World.replace World.write World.log World.files find fst].
  rewrite String.eqb_refl. reflexivity.
Qed.

(** X14: when the invoice has no [pdfPath], or the file it names is gone,
    the download route draws the invoice again with the logo as it is now,
    writes it to [invoices/invoice-<number>.pdf], records that path on the
    stored invoice and serves the new document. *)
Theorem download_regenerates_missing_file (id : string) (w : World.t)
        (inv : Invoice.t) :
  queryThrows id = false ->
  findById id w = Some inv ->
  artifactMissing inv w = true ->
  World.writable w (pdfPathOf inv) = true ->
  accepts (Invoice.with_pdfPath (pdfPathOf inv) inv) = true ->
  let r := downloadInvoice id w in
  fst r
  = ReplyPdf "application/pdf"
      ("attachment; filename=" +s+ dquote +s+ "invoice-"
       +s+ Invoice.invoiceNumber inv +s+ ".pdf" +s+ dquote)
      (rendered (World.logo w) inv)
  /\ readFile (pdfPathOf inv) (snd r) = Some (rendered (World.logo w) inv)
  /\ findById id (snd r) = Some (Invoice.with_pdfPath (pdfPathOf inv) inv).
Proof.
  intros Hq Hf Hm Hw Ha. cbv zeta.
  rewrite (downloadInvoice_missing id w inv Hq Hf Hm Hw Ha).
  cbn [fst snd]. repeat apply conj.
  - reflexivity.
  - unfold readFile, atPath.
    cbn [World.replace World.write World.log World.files find fst].
    now rewrite String.eqb_refl.
  - unfold findById. cbn [World.replace World.write World.log World.store].
    rewrite find_map_same_number by (intro k; apply replace_same_number).
    unfold findById in Hf. rewrite Hf. cbn [option_map].
    apply find_some in Hf as [_ Hid]. apply hasId_number in Hid.
    cbn [Invoice.with_pdfPath Invoice.invoiceNumber].
    now rewrite String.eqb_refl.
Qed.

(** X15: right after a create answered with status 201, a download of the
    new invoice serves the document that was drawn at creation, even if the
    logo has changed since, and changes nothing. *)
Theorem download_after_create (body : Body.t) (w w' : World.t)
        (inv : Invoice.t) (logo : LogoAsset) :
  postInvoices body w = (Status201 inv, w') ->
  queryThrows (Invoice.invoiceNumber inv) = false ->
  downloadInvoice (Invoice.invoiceNumber inv) (World.with_logo logo w')
  = (ReplyPdf "application/pdf"
       ("attachment; filename=" +s+ dquote +s+ "invoice-"
        +s+ Invoice.invoiceNumber inv +s+ ".pdf" +s+ dquote)
       (rendered (World.logo w) inv),
     World.with_logo logo w').
Proof.
  intros Hc Hq.
  apply postInvoices_created in Hc as (invoice & _ & -> & _ & _ & Hf & Hs & _).
  apply (downloadInvoice_present _ (pdfPathOf invoice)); try assumption.
  - unfold findById. cbn [World.with_logo World.store]. rewrite Hs.
    cbn [find]. unfold hasId. now rewrite String.eqb_refl.
  - reflexivity.
  - reflexivity.
  - unfold readFile, atPath. cbn [World.with_logo World.files]. rewrite Hf.
    cbn [find fst]. rewrite String.eqb_refl. cbn [option_map snd].
    now rewrite rendered_with_pdfPath.
Qed.

(** X16: a download that had to draw the invoice again makes the next one
    cheap: the second download returns the same reply and leaves the world
    as the first one left it. *)
Theorem second_download_is_stable (id : string) (w : World.t)
        (inv : Invoice.t) :
  queryThrows id = false ->
  findById id w = Some inv ->
  artifactMissing inv w = true ->
  World.writable w (pdfPathOf inv) = true ->
  accepts (Invoice.with_pdfPath (pdfPathOf inv) inv) = true ->
  let r := downloadInvoice id w in
  downloadInvoice id (snd r) = r.
Proof.
  intros Hq Hf Hm Hw Ha. cbv zeta.
  rewrite (downloadInvoice_missing id w inv Hq Hf Hm Hw Ha). cbn [snd].
  apply (downloadInvoice_present id (pdfPathOf inv) _
           (Invoice.with_pdfPath (pdfPathOf inv) inv)); try assumption.
  - unfold findById. cbn [World.replace World.write World.log World.store].
    rewrite find_map_same_number by (intro k; apply replace_same_number).
    unfold findById in Hf. rewrite Hf. cbn [option_map].
    apply find_some in Hf as [_ Hid]. apply hasId_number in Hid.
    cbn [Invoice.with_pdfPath Invoice.invoiceNumber].
    now rewrite String.eqb_refl.
  - reflexivity.
  - reflexivity.
  - unfold readFile, atPath.
    cbn [World.replace World.write World.log World.files find fst].
    now rewrite String.eqb_refl.
Qed.

(** *** Status *)

Lemma statusAllowed_iff (s : string) :
  statusAllowed s = true <-> s = "draft" \/ s = "sent" \/ s = "paid".
Proof.
  unfold statusAllowed. cbn [existsb].
  rewrite !orb_true_iff, !String.eqb_eq. intuition discriminate.
Qed.

(** X17: the status route refuses, with status 400 and before it looks the
    invoice up, a request whose status is missing or is not one of draft,
    sent and paid; nothing changes. *)
Theorem invalid_status_refused (id : string) (status : option string)
        (w : World.t) :
  (forall s, status = Some s -> s <> "draft" /\ s <> "sent" /\ s <> "paid") ->
  patchStatus id status w = (ReplyError 400 "Invalid status", w).
Proof.
  intro Hs. unfold patchStatus. destruct status as [s|]; [|reflexivity].
  destruct (statusAllowed s) eqn:E; [|reflexivity].
  apply statusAllowed_iff in E. specialize (Hs s eq_refl). tauto.
Qed.

(** X18: any of the three statuses can be set on a stored invoice whatever
    its status is: the route answers with the invoice carrying the new
    status, the stored invoice changes in its status only, and no other
    invoice and no file is touched. *)
Theorem status_changes_freely (id s : string) (w : World.t) (inv : Invoice.t) :
  s = "draft" \/ s = "sent" \/ s = "paid" ->
  queryThrows id = false ->
  findById id w = Some inv ->
  let r := patchStatus id (Some s) w in
  fst r = ReplyUpdated "Invoice status updated" (withStatus s inv)
  /\ findById id (snd r) = Some (withStatus s inv)
  /\ (forall id', id' <> id -> findById id' (snd r) = findById id' w)
  /\ World.files (snd r) = World.files w
  /\ List.length (World.store (snd r)) = List.length (World.store w).
Proof.
  intros Hs Hq Hf. cbv zeta. apply statusAllowed_iff in Hs.
  unfold patchStatus, findByIdAndUpdate. rewrite Hs, Hq, Hf.
  cbn [negb option_map fst snd]. repeat apply conj.
  - reflexivity.
  - unfold findById. cbn [withStore World.store].
    now apply find_updateFirst_same.
  - intros id' Hne. unfold findById. cbn [withStore World.store].
    now apply find_updateFirst_other.
  - reflexivity.
  - cbn [withStore World.store].
    rewrite <- (length_map Invoice.invoiceNumber),
      map_number_updateFirst, length_map; reflexivity.
Qed.

(** *** Delete *)




(** X21: for a number no stored invoice has, fetching, downloading, deleting
    and (with an allowed status) updating all answer 404 "Invoice not
    found" and change nothing. *)
Theorem unknown_invoice_is_404 (id : string) (w : World.t) :
  queryThrows id = false ->
  findById id w = None ->
  getInvoice id w = (ReplyError 404 "Invoice not found", w)
  /\ downloadInvoice id w = (ReplyError 404 "Invoice not found", w)
  /\ deleteInvoice id w = (ReplyError 404 "Invoice not found", w)
  /\ (forall s, s = "draft" \/ s = "sent" \/ s = "paid" ->
                patchStatus id (Some s) w
                = (ReplyError 404 "Invoice not found", w)).
Proof.
  intros Hq Hf. repeat apply conj.
  - unfold getInvoice. now rewrite Hq, Hf.
  - unfold downloadInvoice. now rewrite Hq, Hf.
  - unfold deleteInvoice. now rewrite Hq, Hf.
  - intros s Hs. apply statusAllowed_iff in Hs.
    unfold patchStatus, findByIdAndUpdate. now rewrite Hs, Hq, Hf.
Qed.

End MoreRouteFacts.

(** ** Invoice numbers *)

Lemma append_assoc (a b c : string) : (a +s+ b) +s+ c = a +s+ (b +s+ c).
Proof. induction a as [|x a IH]; cbn [String.append]; congruence. Qed.

Lemma length_append (a b : string) :
  String.length (a +s+ b) = (String.length a + String.length b)%nat.
Proof.
  induction a as [|x a IH]; cbn [String.append String.length Nat.add];
    congruence.
Qed.

Lemma substring_whole (b : string) : substring 0 (String.length b) b = b.
Proof. induction b as [|x b IH]; cbn [String.length substring]; congruence. Qed.

Lemma sliceLast_append (a b : string) :
  sliceLast (String.length b) (a +s+ b) = b.
Proof.
  unfold sliceLast. rewrite length_append.
  replace (String.length a + String.length b - String.length b)%nat
    with (String.length a) by lia.
  induction a as [|x a IH]; cbn [String.append String.length substring].
  - apply substring_whole.
  - exact IH.
Qed.

Section Digits.

Lemma digit_cases (k : N) :
  (k < 10)%N ->
  (k = 0 \/ k = 1 \/ k = 2 \/ k = 3 \/ k = 4
   \/ k = 5 \/ k = 6 \/ k = 7 \/ k = 8 \/ k = 9)%N.
Proof. lia. Qed.

Lemma to_lu_normal (p : positive) :
  DecimalFacts.nztail (DecimalPos.Unsigned.to_lu (Npos p))
  = DecimalPos.Unsigned.to_lu (Npos p)
  /\ DecimalPos.Unsigned.to_lu (Npos p) <> Decimal.Nil.
Proof.
  assert (Hof : DecimalPos.Unsigned.of_lu
                  (DecimalPos.Unsigned.to_lu (Npos p)) = Npos p).
  { rewrite <- DecimalPos.Unsigned.of_lu_rev.
    exact (DecimalPos.Unsigned.of_to p). }
  pose proof (DecimalPos.Unsigned.to_of_lu
                (DecimalPos.Unsigned.to_lu (Npos p))) as Hn.
  rewrite Hof in Hn. unfold DecimalFacts.lnorm in Hn.
  destruct (DecimalFacts.nztail (DecimalPos.Unsigned.to_lu (Npos p)))
    eqn:E; try (split; [now symmetry|rewrite Hn; discriminate]).
  exfalso. rewrite Hn in Hof. discriminate Hof.
Qed.

Lemma to_lu_step (k : N) (p : positive) :
  (k < 10)%N ->
  DecimalPos.Unsigned.to_lu (k + 10 * Npos p)
  = consDigit k (DecimalPos.Unsigned.to_lu (Npos p)).
Proof.
  intro Hk. destruct (to_lu_normal p) as [Hnz Hnil].
  assert (Hof : DecimalPos.Unsigned.of_lu
                  (DecimalPos.Unsigned.to_lu (Npos p)) = Npos p).
  { rewrite <- DecimalPos.Unsigned.of_lu_rev.
    exact (DecimalPos.Unsigned.of_to p). }
  set (l := DecimalPos.Unsigned.to_lu (Npos p)) in *.
  assert (Hval : DecimalPos.Unsigned.of_lu (consDigit k l)
                 = (k + 10 * Npos p)%N).
  { destruct (digit_cases k Hk) as [->|[->|[->|[->|[->|[->|[->|[->|[->| ->]]]]]]]]];
      cbn [consDigit DecimalPos.Unsigned.of_lu]; rewrite Hof; reflexivity. }
  rewrite <- Hval, DecimalPos.Unsigned.to_of_lu.
  unfold DecimalFacts.lnorm.
  destruct (digit_cases k Hk) as [->|[->|[->|[->|[->|[->|[->|[->|[->| ->]]]]]]]]];
    cbn [consDigit DecimalFacts.nztail]; rewrite Hnz;
    destruct l; try reflexivity; contradiction.
Qed.

Lemma string_of_revapp (a b : Decimal.uint) :
  NilEmpty.string_of_uint (Decimal.revapp a b)
  = NilEmpty.string_of_uint (Decimal.revapp a Decimal.Nil) +s+ NilEmpty.string_of_uint b.
Proof.
  revert b; induction a; intro b; try reflexivity; cbn [Decimal.revapp];
    rewrite IHa; symmetry; rewrite IHa;
    now rewrite append_assoc.
Qed.

Lemma decimal_pos (p : positive) :
  decimal (Zpos p)
  = NilEmpty.string_of_uint (Decimal.rev (DecimalPos.Unsigned.to_lu (Npos p))).
Proof.
  unfold decimal. cbn [Z.to_int NilZero.string_of_int].
  unfold NilZero.string_of_uint.
  pose proof (DecimalPos.Unsigned.to_uint_nonnil p) as Hn.
  unfold Pos.to_uint in *. cbn [DecimalPos.Unsigned.to_lu].
  destruct (Decimal.rev (Pos.to_little_uint p)); try reflexivity. contradiction.
Qed.

Lemma string_of_consDigit (k : N) :
  (k < 10)%N ->
  NilEmpty.string_of_uint (consDigit k Decimal.Nil)
  = String (digitChar (Z.of_N k)) EmptyString.
Proof.
  intro Hk.
  destruct (digit_cases k Hk) as [->|[->|[->|[->|[->|[->|[->|[->|[->| ->]]]]]]]]];
    reflexivity.
Qed.

Lemma rev_consDigit (k : N) (l : Decimal.uint) :
  Decimal.rev (consDigit k l) = Decimal.revapp l (consDigit k Decimal.Nil).
Proof.
  unfold consDigit. destruct k as [|p]; [reflexivity|].
  do 4 (try destruct p as [p|p|]); reflexivity.
Qed.

(** The digits of a number from 10 on: those of its tenth, then its last. *)
Lemma decimal_step (n : Z) :
  10 <= n ->
  decimal n
  = decimal (n / 10) +s+ String (digitChar (n mod 10)) EmptyString.
Proof.
  intro Hn.
  assert (Hq : 0 < n / 10) by (apply Z.div_str_pos; lia).
  assert (Hr : 0 <= n mod 10 < 10) by (apply Z.mod_pos_bound; lia).
  assert (Hd : n = n mod 10 + 10 * (n / 10))
    by (rewrite Z.add_comm; apply Z.div_mod; lia).
  destruct (n / 10) as [|q|q] eqn:Eq; try lia.
  destruct n as [|p|p]; try lia.
  rewrite !decimal_pos.
  assert (HN : Npos p = (Z.to_N (Zpos p mod 10) + 10 * Npos q)%N) by lia.
  rewrite HN, to_lu_step by lia.
  rewrite rev_consDigit, string_of_revapp, string_of_consDigit by lia.
  rewrite Z2N.id by lia. reflexivity.
Qed.

Lemma decimal_digit (k : Z) :
  0 <= k < 10 -> decimal k = String (digitChar k) EmptyString.
Proof.
  intro Hk.
  assert (H : k = 0 \/ k = 1 \/ k = 2 \/ k = 3 \/ k = 4
              \/ k = 5 \/ k = 6 \/ k = 7 \/ k = 8 \/ k = 9) by lia.
  destruct H as [->|[->|[->|[->|[->|[->|[->|[->|[->| ->]]]]]]]]];
    reflexivity.
Qed.

Lemma div_div_10 (n a : Z) : 0 < a -> n / a / 10 = n / (a * 10).
Proof. intro Ha. apply Z.div_div; lia. Qed.

(** The last six characters of a number of six digits or more. *)
Lemma sliceLast_decimal (n : Z) :
  100000 <= n -> sliceLast 6 (decimal n) = lastSix n.
Proof.
  intro Hn.
  assert (E1 : 10000 <= n / 10) by (apply Z.div_le_lower_bound; lia).
  assert (E2 : 1000 <= n / 100) by (apply Z.div_le_lower_bound; lia).
  assert (E3 : 100 <= n / 1000) by (apply Z.div_le_lower_bound; lia).
  assert (E4 : 10 <= n / 10000) by (apply Z.div_le_lower_bound; lia).
  assert (E5 : 1 <= n / 100000) by (apply Z.div_le_lower_bound; lia).
  rewrite (decimal_step n) by lia.
  rewrite (decimal_step (n / 10)) by lia.
  rewrite (div_div_10 n 10) by lia. change (10 * 10) with 100.
  rewrite (decimal_step (n / 100)) by lia.
  rewrite (div_div_10 n 100) by lia. change (100 * 10) with 1000.
  rewrite (decimal_step (n / 1000)) by lia.
  rewrite (div_div_10 n 1000) by lia. change (1000 * 10) with 10000.
  rewrite (decimal_step (n / 10000)) by lia.
  rewrite (div_div_10 n 10000) by lia. change (10000 * 10) with 100000.
  rewrite !append_assoc. cbn [String.append].
  set (m := n / 100000) in *.
  destruct (Z_lt_le_dec m 10) as [Hm|Hm].
  - rewrite (decimal_digit m) by lia. cbn [String.append].
    unfold sliceLast, lastSix. fold m.
    rewrite (Z.mod_small m 10) by lia. reflexivity.
  - rewrite (decimal_step m Hm), append_assoc. cbn [String.append].
    change 6%nat with
      (String.length
         (String (digitChar (m mod 10))
            (String (digitChar (n / 10000 mod 10))
               (String (digitChar (n / 1000 mod 10))
                  (String (digitChar (n / 100 mod 10))
                     (String (digitChar (n / 10 mod 10))
                        (String (digitChar (n mod 10)) EmptyString))))))).
    rewrite sliceLast_append. reflexivity.
Qed.

Lemma lastSix_mod (n : Z) : lastSix (n mod 1000000) = lastSix n.
Proof.
  assert (H : forall a, In a [10; 100; 1000; 10000; 100000] ->
              n mod 1000000 / a mod 10 = n / a mod 10).
  { intros a Ha. cbn [In] in Ha.
    destruct Ha as [<-|[<-|[<-|[<-|[<-|[]]]]]];
      Z.div_mod_to_equations; lia. }
  assert (H0 : n mod 1000000 mod 10 = n mod 10)
    by (Z.div_mod_to_equations; lia).
  unfold lastSix. rewrite H0, !H by (cbn [In]; tauto). reflexivity.
Qed.

End Digits.

Section InvoiceNumberFacts.

Context `{Host} `{RecordStore}.

Lemma length_decimal_year (y : Z) :
  1000 <= y <= 9999 -> String.length (decimal y) = 4%nat.
Proof.
  intro Hy.
  assert (E1 : 100 <= y / 10 <= 999) by (Z.div_mod_to_equations; lia).
  assert (E2 : 10 <= y / 100 <= 99) by (Z.div_mod_to_equations; lia).
  assert (E3 : 1 <= y / 1000 <= 9) by (Z.div_mod_to_equations; lia).
  rewrite (decimal_step y) by lia.
  rewrite (decimal_step (y / 10)) by lia.
  rewrite (div_div_10 y 10) by lia. change (10 * 10) with 100.
  rewrite (decimal_step (y / 100)) by lia.
  rewrite (div_div_10 y 100) by lia. change (100 * 10) with 1000.
  rewrite (decimal_digit (y / 1000)) by lia.
  reflexivity.
Qed.

Lemma padStart2_month (m : Z) :
  0 <= m <= 11 -> padStart2 (decimal (m + 1)) = lastTwo (m + 1).
Proof.
  intro Hm.
  assert (H' : m = 0 \/ m = 1 \/ m = 2 \/ m = 3 \/ m = 4 \/ m = 5
               \/ m = 6 \/ m = 7 \/ m = 8 \/ m = 9 \/ m = 10 \/ m = 11)
    by lia.
  destruct H' as [->|[->|[->|[->|[->|[->|[->|[->|[->|[->|[->| ->]]]]]]]]]]];
    reflexivity.
Qed.

(** X22: for a clock reading of at least 100000 ms, a four-digit year and a
    month index from 0 to 11, the invoice number reads INV-, the year, the
    month as two digits counted from 01, a dash and the last six decimal
    digits of the reading: seventeen characters in all. *)
Theorem invoice_number_shape (now : Date) :
  100000 <= now ->
  1000 <= getFullYear now <= 9999 ->
  0 <= getMonth now <= 11 ->
  generateInvoiceNumber now
  = "INV-" +s+ decimal (getFullYear now) +s+ lastTwo (getMonth now + 1)
    +s+ "-" +s+ lastSix now
  /\ String.length (decimal (getFullYear now)) = 4%nat
  /\ String.length (generateInvoiceNumber now) = 17%nat.
Proof.
  intros Hn Hy Hm.
  assert (E : generateInvoiceNumber now
              = "INV-" +s+ decimal (getFullYear now)
                +s+ lastTwo (getMonth now + 1) +s+ "-" +s+ lastSix now).
  { unfold generateInvoiceNumber.
    now rewrite (padStart2_month _ Hm), (sliceLast_decimal _ Hn). }
  split; [exact E|]. split; [now apply length_decimal_year|].
  rewrite E, !length_append, (length_decimal_year _ Hy). reflexivity.
Qed.

(** X23: two clock readings of at least 100000 ms that fall in the same
    month of the same year and agree in their last six decimal digits (for
    one, readings 1000 seconds apart) give the same invoice number. *)
Theorem invoice_numbers_collide (t t' : Date) :
  100000 <= t ->
  100000 <= t' ->
  t mod 1000000 = t' mod 1000000 ->
  getFullYear t = getFullYear t' ->
  getMonth t = getMonth t' ->
  generateInvoiceNumber t = generateInvoiceNumber t'.
Proof.
  intros Ht Ht' Hmod Hy Hm. unfold generateInvoiceNumber.
  rewrite Hy, Hm, !sliceLast_decimal by assumption.
  now rewrite <- (lastSix_mod t), <- (lastSix_mod t'), Hmod.
Qed.

Lemma newInvoice_number (body : Body.t) (now : Date) (invoice : Invoice.t) :
  newInvoice body now = Some invoice ->
  Invoice.invoiceNumber invoice = generateInvoiceNumber now.
Proof. intro Hnew. now destruct (newInvoice_some _ _ _ Hnew). Qed.

(** X24: once a create has been answered with status 201, a later create
    whose clock reading gives the same invoice number (the same reading, or
    a colliding one) is answered with status 500 and stores nothing, however
    valid its body is. *)
Theorem colliding_create_refused (body body' : Body.t) (w w' : World.t)
        (inv : Invoice.t) (t' : Date) :
  postInvoices body w = (Status201 inv, w') ->
  generateInvoiceNumber t' = generateInvoiceNumber (World.now w) ->
  clientInfoRejected (Body.clientInfo body') = false ->
  itemsRejected (Body.items body') = false ->
  postInvoices body' (atTime t' w')
  = (Status500 "Failed to create invoice",
     World.log ["Error creating invoice:"] (atTime t' w')).
Proof.
  intros Hc Hn Hcl Hit.
  apply postInvoices_created in Hc
    as (invoice & Hnew & -> & _ & _ & _ & Hs & _).
  unfold postInvoices. rewrite Hcl, Hit.
  cbn [atTime World.now].
  destruct (newInvoice body' t') as [invoice'|] eqn:Hnew'; [|reflexivity].
  unfold saveNew. cbn [atTime World.store]. rewrite Hs.
  cbn [existsb Invoice.with_pdfPath Invoice.invoiceNumber].
  rewrite (newInvoice_number _ _ _ Hnew), (newInvoice_number _ _ _ Hnew'),
    Hn, String.eqb_refl.
  cbn [orb negb]. rewrite andb_false_r. reflexivity.
Qed.

End InvoiceNumberFacts.

Section DownloadErrors.

Context `{Host} `{RecordStore} `{Queries}.

(** X25: when the artifact is missing and the sink cannot be written, the
    download route answers with status 500 and changes neither the store
    nor the files. *)
Theorem failed_download_changes_no_record (id : string) (w : World.t)
        (inv : Invoice.t) :
  queryThrows id = false ->
  findById id w = Some inv ->
  artifactMissing inv w = true ->
  World.writable w (pdfPathOf inv) = false ->
  let r := downloadInvoice id w in
  fst r = ReplyError 500 "Failed to download invoice"
  /\ World.store (snd r) = World.store w
  /\ World.files (snd r) = World.files w.
Proof.
  intros Hq Hf Hm Hw. cbv zeta. unfold downloadInvoice.
  rewrite Hq, Hf, Hm. unfold generateInvoicePDF.
  cbn [World.log World.writable]. rewrite Hw.
  repeat split.
Qed.

End DownloadErrors.

(** ** More concrete runs *)

(** X1 on the invoice with an address and a phone. *)
Lemma phone_absent_shifts_up_witness :
  JS.truthy_string "555-0100" = true
  /\ JS.truthy_field None = false
  /\ lineOffsets "Total:" 350
       (rendered LogoMissing (withPhone (Some "555-0100") fullInvoice))
     = [395]
  /\ lineOffsets "Total:" 350
       (rendered LogoMissing (withPhone None fullInvoice))
     = [380].
Proof.
  destruct (phone_absent_shifts_up LogoMissing fullInvoice "555-0100" None
              eq_refl eq_refl) as (Hp & Ha).
  refine (conj eq_refl (conj eq_refl (conj _ _))).
  - rewrite Hp. vm_compute. reflexivity.
  - rewrite Ha. vm_compute. reflexivity.
Defined.

(** X6 on the same invoice: the phone stays at 225. *)
Lemma fixed_layout_keeps_gap_witness :
  JS.truthy_string "1 Main St" = true
  /\ JS.truthy_field None = false
  /\ lineOffsets "555-0100" 50
       (renderedFixed (Invoice.with_address (Some "1 Main St") fullInvoice))
     = [225]
  /\ lineOffsets "555-0100" 50
       (renderedFixed (Invoice.with_address None fullInvoice))
     = [225].
Proof.
  destruct (fixed_layout_keeps_gap fullInvoice "1 Main St" None
              eq_refl eq_refl) as (Hp & Ha & _).
  refine (conj eq_refl (conj eq_refl (conj _ _))).
  - rewrite Hp. vm_compute. reflexivity.
  - rewrite Ha. vm_compute. reflexivity.
Defined.

Lemma design_created :
  postInvoices designBody sampleWorld = (Status201 storedDesign, designWorld).
Proof. vm_compute. reflexivity. Qed.

(** X8 on the sample create request. *)
Lemma created_invoice_has_its_artifact_witness :
  fst (postInvoices designBody sampleWorld) = Status201 storedDesign
  /\ Invoice.pdfPath storedDesign
     = Some "invoices/invoice-INV-202601-600000.pdf"
  /\ readFile "invoices/invoice-INV-202601-600000.pdf" designWorld
     = Some (rendered LogoMissing storedDesign).
Proof.
  assert (Hc : fst (postInvoices designBody sampleWorld)
               = Status201 storedDesign) by (vm_compute; reflexivity).
  destruct (created_invoice_has_its_artifact designBody sampleWorld
              storedDesign Hc) as (_ & Hp & _ & Hr).
  exact (conj Hc (conj Hp Hr)).
Defined.

(** X9 on the sample request with a sink that cannot be written. *)
Lemma failed_render_leaves_record_witness :
  clientInfoRejected (Body.clientInfo designBody) = false
  /\ itemsRejected (Body.items designBody) = false
  /\ newInvoice designBody (World.now readOnlyWorld) = Some designInvoice
  /\ accepts designInvoice = true
  /\ findById (Invoice.invoiceNumber designInvoice) readOnlyWorld = None
  /\ World.writable readOnlyWorld (pdfPathOf designInvoice) = false
  /\ fst (postInvoices designBody readOnlyWorld)
     = Status500 "Failed to create invoice"
  /\ World.store (snd (postInvoices designBody readOnlyWorld))
     = [designInvoice].
Proof.
  assert (Hn : newInvoice designBody (World.now readOnlyWorld)
               = Some designInvoice) by (vm_compute; reflexivity).
  assert (Ha : accepts designInvoice = true) by reflexivity.
  destruct (failed_render_leaves_record designBody readOnlyWorld
              designInvoice eq_refl eq_refl Hn Ha eq_refl eq_refl)
    as (Hr & Hs & _).
  exact (conj eq_refl (conj eq_refl (conj Hn (conj Ha (conj eq_refl
          (conj eq_refl (conj Hr Hs))))))).
Defined.

(** X11 on a request whose tax is NaN: the stored tax is 0. *)
Lemma stored_tax_is_clean_witness :
  NumberOrMissing (Body.tax nanTaxBody)
  /\ In designInvoice
       (World.store (snd (postInvoices nanTaxBody readOnlyWorld)))
  /\ JS.isNaN (Invoice.tax designInvoice) = false
  /\ Invoice.tax designInvoice = 0%float.
Proof.
  assert (Ht : NumberOrMissing (Body.tax nanTaxBody))
    by exact (TaxNumber PrimFloat.nan).
  assert (Hin : In designInvoice
                   (World.store (snd (postInvoices nanTaxBody readOnlyWorld))))
    by (left; vm_compute; reflexivity).
  destruct (stored_tax_is_clean nanTaxBody readOnlyWorld _ Ht Hin)
    as [[]|(Hn & _)].
  exact (conj Ht (conj Hin (conj Hn eq_refl))).
Defined.

(** X12 on the sample world, before and after the sample create. *)
Lemma routes_keep_numbers_unique_witness :
  UniqueNumbers sampleWorld
  /\ UniqueNumbers designWorld
  /\ UniqueNumbers (snd (patchStatus designNumber (Some "paid") designWorld))
  /\ UniqueNumbers (snd (deleteInvoice designNumber designWorld)).
Proof.
  assert (H0 : UniqueNumbers sampleWorld) by constructor.
  destruct (routes_keep_numbers_unique sampleWorld H0) as (Hc & _).
  pose proof (Hc designBody) as H1. fold designWorld in H1.
  destruct (routes_keep_numbers_unique designWorld H1)
    as (_ & _ & _ & Hp & Hd).
  exact (conj H0 (conj H1 (conj (Hp _ _) (Hd _)))).
Defined.

(** X13 on the world after the sample create. *)
Lemma download_serves_existing_file_witness :
  queryThrows designNumber = false
  /\ findById designNumber designWorld = Some storedDesign
  /\ Invoice.pdfPath storedDesign = Some (pdfPathOf designInvoice)
  /\ JS.truthy_string (pdfPathOf designInvoice) = true
  /\ readFile (pdfPathOf designInvoice) designWorld
     = Some (rendered LogoMissing designInvoice)
  /\ downloadInvoice designNumber designWorld
     = (ReplyPdf "application/pdf"
          ("attachment; filename=" +s+ dquote
           +s+ "invoice-INV-202601-600000.pdf" +s+ dquote)
          (rendered LogoMissing designInvoice),
        designWorld).
Proof.
  assert (Hf : findById designNumber designWorld = Some storedDesign)
    by (vm_compute; reflexivity).
  assert (Hr : readFile (pdfPathOf designInvoice) designWorld
               = Some (rendered LogoMissing designInvoice))
    by (vm_compute; reflexivity).
  exact (conj eq_refl (conj Hf (conj eq_refl (conj eq_refl (conj Hr
          (download_serves_existing_file designNumber
             (pdfPathOf designInvoice) designWorld storedDesign
             (rendered LogoMissing designInvoice)
             eq_refl Hf eq_refl eq_refl Hr)))))).
Defined.

(** X14 on a world that stores the sample invoice without an artifact. *)
Lemma download_regenerates_missing_file_witness :
  queryThrows designNumber = false
  /\ findById designNumber orphanWorld = Some designInvoice
  /\ artifactMissing designInvoice orphanWorld = true
  /\ World.writable orphanWorld (pdfPathOf designInvoice) = true
  /\ accepts storedDesign = true
  /\ readFile (pdfPathOf designInvoice)
       (snd (downloadInvoice designNumber orphanWorld))
     = Some (rendered LogoMissing designInvoice)
  /\ findById designNumber (snd (downloadInvoice designNumber orphanWorld))
     = Some storedDesign.
Proof.
  assert (Hf : findById designNumber orphanWorld = Some designInvoice)
    by (vm_compute; reflexivity).
  assert (Hq : queryThrows designNumber = false) by reflexivity.
  assert (Ha : accepts storedDesign = true) by reflexivity.
  destruct (download_regenerates_missing_file designNumber orphanWorld
              designInvoice Hq Hf eq_refl eq_refl Ha)
    as (_ & Hr & Hs).
  exact (conj eq_refl (conj Hf (conj eq_refl (conj eq_refl (conj eq_refl
          (conj Hr Hs)))))).
Defined.

(** X15 on the sample create, the logo having appeared since. *)
Lemma download_after_create_witness :
  postInvoices designBody sampleWorld = (Status201 storedDesign, designWorld)
  /\ queryThrows (Invoice.invoiceNumber storedDesign) = false
  /\ fst (downloadInvoice (Invoice.invoiceNumber storedDesign)
            (World.with_logo LogoReadable designWorld))
     = ReplyPdf "application/pdf"
         ("attachment; filename=" +s+ dquote
          +s+ "invoice-INV-202601-600000.pdf" +s+ dquote)
         (rendered LogoMissing storedDesign).
Proof.
  refine (conj design_created (conj eq_refl _)).
  assert (Hq : queryThrows (Invoice.invoiceNumber storedDesign) = false)
    by reflexivity.
  rewrite (download_after_create designBody sampleWorld designWorld
             storedDesign LogoReadable design_created Hq).
  reflexivity.
Defined.

(** X16 on the world that stores the sample invoice without an artifact. *)
Lemma second_download_is_stable_witness :
  queryThrows designNumber = false
  /\ findById designNumber orphanWorld = Some designInvoice
  /\ artifactMissing designInvoice orphanWorld = true
  /\ World.writable orphanWorld (pdfPathOf designInvoice) = true
  /\ accepts storedDesign = true
  /\ downloadInvoice designNumber
       (snd (downloadInvoice designNumber orphanWorld))
     = downloadInvoice designNumber orphanWorld.
Proof.
  assert (Hf : findById designNumber orphanWorld = Some designInvoice)
    by (vm_compute; reflexivity).
  exact (conj eq_refl (conj Hf (conj eq_refl (conj eq_refl (conj eq_refl
          (second_download_is_stable designNumber orphanWorld designInvoice
             eq_refl Hf eq_refl eq_refl eq_refl)))))).
Defined.

(** X17 on a status that is not one of the three. *)
Lemma invalid_status_refused_witness :
  (forall s, Some "cancelled" = Some s ->
             s <> "draft" /\ s <> "sent" /\ s <> "paid")
  /\ patchStatus designNumber (Some "cancelled") designWorld
     = (ReplyError 400 "Invalid status", designWorld).
Proof.
  assert (Hs : forall s, Some "cancelled" = Some s ->
                         s <> "draft" /\ s <> "sent" /\ s <> "paid")
    by (intros s [= <-]; repeat split; discriminate).
  exact (conj Hs (invalid_status_refused designNumber (Some "cancelled")
                    designWorld Hs)).
Defined.

(** X18 on the stored sample invoice, a draft set to paid. *)
Lemma status_changes_freely_witness :
  ("paid" = "draft" \/ "paid" = "sent" \/ "paid" = "paid")
  /\ queryThrows designNumber = false
  /\ findById designNumber designWorld = Some storedDesign
  /\ Invoice.status storedDesign = "draft"
  /\ findById designNumber
       (snd (patchStatus designNumber (Some "paid") designWorld))
     = Some (withStatus "paid" storedDesign).
Proof.
  assert (Hs : "paid" = "draft" \/ "paid" = "sent" \/ "paid" = "paid")
    by (right; right; reflexivity).
  assert (Hf : findById designNumber designWorld = Some storedDesign)
    by (vm_compute; reflexivity).
  assert (Hq : queryThrows designNumber = false) by reflexivity.
  destruct (status_changes_freely designNumber "paid" designWorld
              storedDesign Hs Hq Hf) as (_ & Hu & _).
  exact (conj Hs (conj eq_refl (conj Hf (conj eq_refl Hu)))).
Defined.



(** X21 on a number the sample world does not have. *)
Lemma unknown_invoice_is_404_witness :
  queryThrows "INV-000000-000000" = false
  /\ findById "INV-000000-000000" designWorld = None
  /\ deleteInvoice "INV-000000-000000" designWorld
     = (ReplyError 404 "Invoice not found", designWorld).
Proof.
  assert (Hf : findById "INV-000000-000000" designWorld = None)
    by (vm_compute; reflexivity).
  assert (Hq : queryThrows "INV-000000-000000" = false) by reflexivity.
  destruct (unknown_invoice_is_404 "INV-000000-000000" designWorld
              Hq Hf) as (_ & _ & Hd & _).
  exact (conj eq_refl (conj Hf Hd)).
Defined.

(** X22 on the sample clock reading. *)
Lemma invoice_number_shape_witness :
  100000 <= 1767225600000
  /\ 1000 <= getFullYear 1767225600000 <= 9999
  /\ 0 <= getMonth 1767225600000 <= 11
  /\ generateInvoiceNumber 1767225600000 = "INV-202601-600000"
  /\ String.length (generateInvoiceNumber 1767225600000) = 17%nat.
Proof.
  assert (Hn : 100000 <= 1767225600000) by lia.
  assert (Hy : 1000 <= getFullYear 1767225600000 <= 9999)
    by (vm_compute; split; discriminate).
  assert (Hm : 0 <= getMonth 1767225600000 <= 11)
    by (vm_compute; split; discriminate).
  destruct (invoice_number_shape 1767225600000 Hn Hy Hm) as (He & _ & Hl).
  refine (conj Hn (conj Hy (conj Hm (conj _ Hl)))).
  rewrite He. vm_compute. reflexivity.
Defined.

(** X23 on the sample clock reading and the one 1000 seconds later. *)
Lemma invoice_numbers_collide_witness :
  100000 <= 1767225600000
  /\ 100000 <= 1767226600000
  /\ 1767225600000 mod 1000000 = 1767226600000 mod 1000000
  /\ getFullYear 1767225600000 = getFullYear 1767226600000
  /\ getMonth 1767225600000 = getMonth 1767226600000
  /\ generateInvoiceNumber 1767225600000
     = generateInvoiceNumber 1767226600000.
Proof.
  assert (H1 : 100000 <= 1767225600000) by lia.
  assert (H2 : 100000 <= 1767226600000) by lia.
  exact (conj H1 (conj H2 (conj eq_refl (conj eq_refl (conj eq_refl
          (invoice_numbers_collide 1767225600000 1767226600000
             H1 H2 eq_refl eq_refl eq_refl)))))).
Defined.

(** X24 on the sample create, followed by a second request 1000 seconds
    later. *)
Lemma colliding_create_refused_witness :
  postInvoices designBody sampleWorld = (Status201 storedDesign, designWorld)
  /\ generateInvoiceNumber 1767226600000
     = generateInvoiceNumber (World.now sampleWorld)
  /\ clientInfoRejected (Body.clientInfo designTaxBody) = false
  /\ itemsRejected (Body.items designTaxBody) = false
  /\ fst (postInvoices designTaxBody (atTime 1767226600000 designWorld))
     = Status500 "Failed to create invoice".
Proof.
  assert (Hn : generateInvoiceNumber 1767226600000
               = generateInvoiceNumber (World.now sampleWorld))
    by (vm_compute; reflexivity).
  refine (conj design_created (conj Hn (conj eq_refl (conj eq_refl _)))).
  rewrite (colliding_create_refused designBody designTaxBody sampleWorld
             designWorld storedDesign 1767226600000 design_created Hn
             eq_refl eq_refl).
  reflexivity.
Defined.

(** X25 on the read-only world holding the sample invoice. *)
Lemma failed_download_changes_no_record_witness :
  queryThrows designNumber = false
  /\ findById designNumber (World.insert designInvoice readOnlyWorld)
     = Some designInvoice
  /\ artifactMissing designInvoice (World.insert designInvoice readOnlyWorld)
     = true
  /\ World.writable (World.insert designInvoice readOnlyWorld)
       (pdfPathOf designInvoice) = false
  /\ fst (downloadInvoice designNumber
            (World.insert designInvoice readOnlyWorld))
     = ReplyError 500 "Failed to download invoice".
Proof.
  assert (Hf : findById designNumber (World.insert designInvoice readOnlyWorld)
               = Some designInvoice) by (vm_compute; reflexivity).
  assert (Hq : queryThrows designNumber = false) by reflexivity.
  destruct (failed_download_changes_no_record designNumber
              (World.insert designInvoice readOnlyWorld) designInvoice
              Hq Hf eq_refl eq_refl) as (Hr & _).
  exact (conj eq_refl (conj Hf (conj eq_refl (conj eq_refl Hr)))).
Defined.
